(** * PoI importer: a shallow embedding of the ingestion pipeline

    The development follows [poi_importer_app/models.py] (the [PoI] model and
    its [save] override) and
    [poi_importer_app/management/commands/import_pois.py] (the [Command]
    class: [import_xml], [process_dataframe], [parse_ratings]).

    Conventions.
    - A Python [str] is a [string]; every [ascii] stands for one character
      (the code points below 256).  A [bytes] object is a [list byte].
    - A Python [float] is a binary64 number, Rocq's primitive [float].
    - A Python [int] is a [Z].
    - A call that may raise returns a [result]: [Ok v] or [Raise e]. *)

From Stdlib Require Import ZArith Bool Floats.
From Stdlib.Strings Require Import Ascii String Byte.
From stdpp Require Import base tactics option list.

Local Open Scope Z_scope.

(** ** Exceptions and fallible computations *)

Module Py.

(** The exception classes the importer can meet.  [BadGzipFile] and
    [FileNotFoundError] are subclasses of [OSError]; [EOFError] and
    [ZlibError] are not. *)
Inductive exn : Type :=
  | ValueError
  | TypeError
  | KeyError
  | OverflowError
  | OSError
  | BadGzipFile
  | FileNotFoundError
  | EOFError
  | ZlibError
  | IntegrityError
  | MultipleObjectsReturned
  | XMLSyntaxError.

(** [isinstance(e, OSError)] *)
Definition is_OSError (e : exn) : bool :=
  match e with
  | OSError | BadGzipFile | FileNotFoundError => true
  | _ => false
  end.

(** [isinstance(e, (ValueError, TypeError))] *)
Definition is_ValueError_or_TypeError (e : exn) : bool :=
  match e with
  | ValueError | TypeError => true
  | _ => false
  end.

Inductive result (A : Type) : Type :=
  | Ok (a : A)
  | Raise (e : exn).
Arguments Ok {A} a.
Arguments Raise {A} e.

(** Sequencing: the first exception raised ends the computation. *)
#[export] Instance result_bind : MBind result := fun A B k m =>
  match m with
  | Ok a => k a
  | Raise e => Raise e
  end.

#[export] Instance result_ret : MRet result := fun A a => Ok a.

End Py.

Import Py.

(** ** Text *)

Module Text.

Definition code (c : ascii) : Z := Z.of_N (N_of_ascii c).

(** [str.isspace] on one character: TAB, LF, VT, FF, CR, the separators
    FS, GS, RS, US, the space, NEL and the no-break space. *)
Definition is_space (c : ascii) : bool :=
  let n := code c in
  ((9 <=? n) && (n <=? 13)) || ((28 <=? n) && (n <=? 32))
  || (n =? 133) || (n =? 160).

(** [\d] of a [str] pattern: the decimal digits. *)
Definition is_digit (c : ascii) : bool :=
  let n := code c in (48 <=? n) && (n <=? 57).

(** [[0-9A-Fa-f]] *)
Definition is_hex (c : ascii) : bool :=
  let n := code c in
  ((48 <=? n) && (n <=? 57)) || ((65 <=? n) && (n <=? 70))
  || ((97 <=? n) && (n <=? 102)).

Local Open Scope string_scope.

(** [s.lstrip()] *)
Fixpoint lstrip (s : string) : string :=
  match s with
  | String c s' => if is_space c then lstrip s' else s
  | EmptyString => EmptyString
  end.

(** [s.rstrip()] *)
Fixpoint rstrip (s : string) : string :=
  match s with
  | String c s' =>
      match rstrip s' with
      | EmptyString => if is_space c then EmptyString else String c EmptyString
      | t => String c t
      end
  | EmptyString => EmptyString
  end.

(** [s.strip()] *)
Definition strip (s : string) : string := rstrip (lstrip s).

(** [s.startswith(w)] *)
Fixpoint startswith (w s : string) : bool :=
  match w with
  | EmptyString => true
  | String c w' =>
      match s with
      | String c' s' => Ascii.eqb c' c && startswith w' s'
      | EmptyString => false
      end
  end.

(** [s.endswith(c)] for a one-character [c] *)
Fixpoint endswith (c : ascii) (s : string) : bool :=
  match s with
  | String c' EmptyString => Ascii.eqb c' c
  | String _ s' => endswith c s'
  | EmptyString => false
  end.

(** [s[1:-1]]: the slice from index 1 up to, not including, the last
    character; empty when [s] has fewer than three characters. *)
Definition slice_1_m1 (s : string) : string :=
  substring 1 (String.length s - 2) s.

(** [s.split(sep)] for a one-character separator: always at least one
    piece. *)
Fixpoint split (sep : ascii) (s : string) : list string :=
  match s with
  | EmptyString => [EmptyString]
  | String c s' =>
      if Ascii.eqb c sep then EmptyString :: split sep s'
      else match split sep s' with
           | p :: ps => String c p :: ps
           | [] => [String c EmptyString]
           end
  end.

(** [s.find(c)]: the index of the first [c], or [-1]. *)
Fixpoint find (c : ascii) (s : string) : Z :=
  match s with
  | EmptyString => (-1)%Z
  | String c' s' =>
      if Ascii.eqb c' c then 0%Z
      else let i := find c s' in (if i <? 0 then -1 else i + 1)%Z
  end.

(** [s[i:]] for [i >= 0] *)
Fixpoint drop (n : nat) (s : string) : string :=
  match n, s with
  | O, _ => s
  | S n', String _ s' => drop n' s'
  | S _, EmptyString => EmptyString
  end.

End Text.

(** ** Regular expressions: the fragment of [re] the importer uses *)

Module Re.

Local Open Scope string_scope.

(** Patterns: the empty pattern, a literal character, a character class,
    concatenation,
    alternation, [c+] over a class, and the negative lookahead [(?!r)]. *)
Inductive regex : Type :=
  | Eps
  | Chr (c : ascii)
  | Class (p : ascii -> bool)
  | Seq (r1 r2 : regex)
  | Alt (r1 r2 : regex)
  | Plus (p : ascii -> bool)
  | NotAhead (r : regex).

(** A literal word, character by character. *)
Fixpoint lit (w : string) : regex :=
  match w with
  | EmptyString => Eps
  | String c w' => Seq (Chr c) (lit w')
  end.

Section Match.
Context {A : Type}.

(** [c+] is greedy: the longer match is tried first, and the matcher
    backtracks to a shorter one when the continuation fails. *)
Fixpoint plus_k (p : ascii -> bool) (s : string)
    (k : string -> option A) : option A :=
  match s with
  | String c s' =>
      if p c then
        match plus_k p s' k with
        | Some x => Some x
        | None => k s'
        end
      else None
  | EmptyString => None
  end.
End Match.

(** Backtracking matcher in continuation-passing style: [match_k r s k]
    matches [r] at the start of [s] and passes the rest to [k]; the first
    alternative that lets [k] succeed wins. *)
Fixpoint match_k {A : Type} (r : regex) (s : string)
    (k : string -> option A) : option A :=
  match r with
  | Eps => k s
  | Chr c =>
      match s with
      | String c' s' => if Ascii.eqb c' c then k s' else None
      | EmptyString => None
      end
  | Class p =>
      match s with
      | String c' s' => if p c' then k s' else None
      | EmptyString => None
      end
  | Seq r1 r2 => match_k r1 s (fun s' => match_k r2 s' k)
  | Alt r1 r2 =>
      match match_k r1 s k with
      | Some x => Some x
      | None => match_k r2 s k
      end
  | Plus p => plus_k p s k
  | NotAhead r' =>
      match match_k r' s (fun _ => Some tt) with
      | Some _ => None
      | None => k s
      end
  end.

(** [pattern.match(s)]: the text left after the match, if there is one. *)
Definition match_prefix (r : regex) (s : string) : option string :=
  match_k r s Some.

(** [pattern.sub(repl, s)] with a literal replacement: scan from the left;
    where the pattern matches, emit [repl] and resume after the match,
    elsewhere copy the character.  [skip] counts the characters of the
    current match still to be passed over.  (An empty match emits [repl]
    and copies the character; the importer's pattern never matches the
    empty string.) *)
Fixpoint sub_from (r : regex) (repl : string) (skip : nat) (s : string)
    : string :=
  match skip with
  | S n =>
      match s with
      | String _ s' => sub_from r repl n s'
      | EmptyString => EmptyString
      end
  | O =>
      match match_prefix r s with
      | Some rest =>
          match (String.length s - String.length rest)%nat, s with
          | S n, String _ s' => repl ++ sub_from r repl n s'
          | O, String c s' => repl ++ String c (sub_from r repl O s')
          | _, EmptyString => repl
          end
      | None =>
          match s with
          | String c s' => String c (sub_from r repl O s')
          | EmptyString => EmptyString
          end
      end
  end.

Definition sub (r : regex) (repl : string) (s : string) : string :=
  sub_from r repl O s.

End Re.

(** ** The XML sanitizer's ampersand step *)

Module Sanitizer.

Import Text Re.
Local Open Scope string_scope.

(** The alternatives of the lookahead:
    [amp;|lt;|gt;|quot;|apos;|#\d+;|#x[0-9A-Fa-f]+;] *)
Definition entity_tail : regex :=
  Alt (lit "amp;")
 (Alt (lit "lt;")
 (Alt (lit "gt;")
 (Alt (lit "quot;")
 (Alt (lit "apos;")
 (Alt (Seq (Chr "#") (Seq (Plus is_digit) (Chr ";")))
      (Seq (lit "#x") (Seq (Plus is_hex) (Chr ";")))))))).

(** [re.compile(r"&(?!amp;|lt;|gt;|quot;|apos;|#\d+;|#x[0-9A-Fa-f]+;)")] *)
Definition pattern : regex := Seq (Chr "&") (NotAhead entity_tail).

(** [_sanitize_ampersands(s)]: [pattern.sub("&amp;", s)] *)
Definition _sanitize_ampersands (s : string) : string :=
  sub pattern "&amp;" s.

End Sanitizer.

(** ** Numbers: the built-in conversions between text, [int] and [float] *)

Module Num.

Import Text.
Local Open Scope string_scope.

(** [float(n)] for an [int]: round to nearest, ties to even; a magnitude
    beyond the largest binary64 number raises [OverflowError]. *)
Definition Z_to_float (z : Z) : float :=
  SF2Prim (binary_normalize prec emax z 0 false).

Definition float_of_int (z : Z) : result float :=
  let f := Z_to_float z in
  if PrimFloat.is_infinity f then Raise OverflowError else Ok f.

(** [int(x)] for a [float]: truncation towards zero; [ValueError] on a
    NaN, [OverflowError] on an infinity. *)
Definition int_of_float (f : float) : result Z :=
  match Prim2SF f with
  | S754_zero _ => Ok 0%Z
  | S754_nan => Raise ValueError
  | S754_infinity _ => Raise OverflowError
  | S754_finite neg m e =>
      let a := if (0 <=? e)%Z then (Zpos m * 2 ^ e)%Z
               else Z.shiftr (Zpos m) (- e) in
      Ok (if neg then (- a)%Z else a)
  end.

(** The binary64 number nearest to [(-1)^neg * m * 10^e], as the
    correctly rounded [strtod] of CPython returns it: overflow gives an
    infinity, underflow a zero. *)
Definition decimal_to_float (neg : bool) (m : Z) (e : Z) : float :=
  if (m <=? 0)%Z then SF2Prim (S754_zero neg)
  else if (0 <=? e)%Z then
    let n := (m * 10 ^ e)%Z in
    SF2Prim (binary_normalize prec emax (if neg then (- n)%Z else n) 0 neg)
  else
    SF2Prim (SFdiv prec emax (S754_finite neg (Z.to_pos m) 0)
               (S754_finite false (Z.to_pos (10 ^ (- e))) 0)).

Definition digit_val (c : ascii) : Z := (code c - 48)%Z.

(** The rest of a [digitpart]: digits, each optionally preceded by one
    underscore.  [acc] is the value read so far and [n] the number of
    digits; the unread text is returned. *)
Fixpoint digitpart_rest (s : string) (acc : Z) (n : Z) : Z * Z * string :=
  match s with
  | String c s' =>
      if is_digit c then
        digitpart_rest s' (10 * acc + digit_val c)%Z (n + 1)%Z
      else if Ascii.eqb c "_" then
        match s' with
        | String d s'' =>
            if is_digit d then
              digitpart_rest s'' (10 * acc + digit_val d)%Z (n + 1)%Z
            else (acc, n, s)
        | EmptyString => (acc, n, s)
        end
      else (acc, n, s)
  | EmptyString => (acc, n, s)
  end.

(** [digitpart ::= digit (["_"] digit)*], continuing the value [acc]. *)
Definition digitpart (s : string) (acc : Z) : option (Z * Z * string) :=
  match s with
  | String c s' =>
      if is_digit c then
        Some (digitpart_rest s' (10 * acc + digit_val c)%Z 1%Z)
      else None
  | EmptyString => None
  end.

(** An optional sign: [true] for a minus. *)
Definition sign (s : string) : bool * string :=
  match s with
  | String "-" s' => (true, s')
  | String "+" s' => (false, s')
  | _ => (false, s)
  end.

(** [number ::= [digitpart] "." digitpart | digitpart ["."]]: the digits
    read as one integer, and how many of them follow the point. *)
Definition number (s : string) : option (Z * Z * string) :=
  match digitpart s 0 with
  | Some (m, _, String "." s') =>
      match digitpart s' m with
      | Some (m', k, rest) => Some (m', k, rest)
      | None => Some (m, 0%Z, s')
      end
  | Some (m, _, rest) => Some (m, 0%Z, rest)
  | None =>
      match s with
      | String "." s' => digitpart s' 0
      | _ => None
      end
  end.

(** [exponent ::= ("e" | "E") ["+" | "-"] digitpart]; absent is [0]. *)
Definition exponent (s : string) : option (Z * string) :=
  match s with
  | String c s' =>
      if Ascii.eqb c "e" || Ascii.eqb c "E" then
        let '(neg, s'') := sign s' in
        match digitpart s'' 0 with
        | Some (x, _, rest) => Some (if neg then (- x)%Z else x, rest)
        | None => None
        end
      else None
  | EmptyString => Some (0%Z, s)
  end.

Definition lower (c : ascii) : ascii :=
  let n := code c in
  if (65 <=? n)%Z && (n <=? 90)%Z then ascii_of_N (Z.to_N (n + 32)) else c.

Fixpoint lowercase (s : string) : string :=
  match s with
  | String c s' => String (lower c) (lowercase s')
  | EmptyString => EmptyString
  end.

(** The white space [float] and [int] skip around a numeral. *)
Definition is_numeral_space (c : ascii) : bool :=
  let n := code c in
  ((9 <=? n) && (n <=? 13))%Z || (n =? 32)%Z || (n =? 133)%Z || (n =? 160)%Z.

Fixpoint lskip (s : string) : string :=
  match s with
  | String c s' => if is_numeral_space c then lskip s' else s
  | EmptyString => EmptyString
  end.

Fixpoint rskip (s : string) : string :=
  match s with
  | String c s' =>
      match rskip s' with
      | EmptyString =>
          if is_numeral_space c then EmptyString else String c EmptyString
      | t => String c t
      end
  | EmptyString => EmptyString
  end.

(** [float(s)] for a [str]: [None] stands for the [ValueError]. *)
Definition float_of_str (s : string) : option float :=
  let '(neg, t) := sign (rskip (lskip s)) in
  let w := lowercase t in
  if String.eqb w "inf" || String.eqb w "infinity" then
    Some (if neg then neg_infinity else infinity)
  else if String.eqb w "nan" then Some nan
  else
    match number t with
    | Some (m, k, rest) =>
        match exponent rest with
        | Some (x, EmptyString) => Some (decimal_to_float neg m (x - k))
        | _ => None
        end
    | None => None
    end.

(** [int(s)] for a [str], base ten: [None] stands for the [ValueError]. *)
Definition int_of_str (s : string) : option Z :=
  let '(neg, t) := sign (rskip (lskip s)) in
  match digitpart t 0 with
  | Some (m, _, EmptyString) => Some (if neg then (- m)%Z else m)
  | _ => None
  end.

End Num.

(** ** Loosely typed row values *)

Module Value.

Import Text Num.
Local Open Scope string_scope.

#[local] Set Warnings "-register-all".

(** What a cell of a decoded row can hold: [None], an integer, a float
    (NaN included: the missing-value marker of pandas), a string, a
    sequence (list, tuple, set or Series) or a nested mapping. *)
Inductive value : Type :=
  | VNone
  | VInt (z : Z)
  | VFloat (f : float)
  | VStr (s : string)
  | VList (l : list value)
  | VDict (items : list (string * value)).

(** [v is None] *)
Definition is_None (v : value) : bool :=
  match v with
  | VNone => true
  | _ => false
  end.

(** [hasattr(v, '__len__') and len(v) == 0] *)
Definition has_len_zero (v : value) : bool :=
  match v with
  | VStr EmptyString => true
  | VList [] => true
  | VDict [] => true
  | _ => false
  end.

(** [int(v)] *)
Definition py_int (v : value) : result Z :=
  match v with
  | VInt z => Ok z
  | VFloat f => int_of_float f
  | VStr s =>
      match int_of_str s with
      | Some z => Ok z
      | None => Raise ValueError
      end
  | VNone | VList _ | VDict _ => Raise TypeError
  end.

(** [float(v)] *)
Definition py_float (v : value) : result float :=
  match v with
  | VInt z => float_of_int z
  | VFloat f => Ok f
  | VStr s =>
      match float_of_str s with
      | Some f => Ok f
      | None => Raise ValueError
      end
  | VNone | VList _ | VDict _ => Raise TypeError
  end.

(** The truth value of [pd.isna(v)].  On a scalar it is a plain boolean:
    true for [None] and for a NaN.  On a sequence [pd.isna] answers with
    an array, whose truth value is that of its only element and an error
    ([ValueError]) when it holds none or several. *)
Fixpoint isna (v : value) : result bool :=
  match v with
  | VNone => Ok true
  | VFloat f => Ok (PrimFloat.is_nan f)
  | VInt _ | VStr _ | VDict _ => Ok false
  | VList [x] => isna x
  | VList _ => Raise ValueError
  end.

(** [isinstance(v, float) and pd.isna(v)] *)
Definition is_float_nan (v : value) : bool :=
  match v with
  | VFloat f => PrimFloat.is_nan f
  | _ => false
  end.

(** A row of the data frame: a [Series] labelled by the column names. *)
Abbreviation Series := (list (string * value)).

(** [row.get(key)]: the value under [key], [None] (by default) when the
    label is absent. *)
Fixpoint series_lookup (row : Series) (key : string) : option value :=
  match row with
  | [] => None
  | (k, v) :: row' =>
      if String.eqb k key then Some v else series_lookup row' key
  end.

Definition series_get (row : Series) (key : string) (default : value) : value :=
  match series_lookup row key with
  | Some v => v
  | None => default
  end.

(** [row[key]]: [KeyError] when the label is absent. *)
Definition series_item (row : Series) (key : string) : result value :=
  match series_lookup row key with
  | Some v => Ok v
  | None => Raise KeyError
  end.

(** A data frame with the default integer index: the column labels and
    the rows of cells. *)
Record DataFrame : Type := {
  columns : list string;
  data : list (list value)
}.

(** [df.iterrows()]: the index label and the labelled row, in order. *)
Fixpoint iterrows_from (cols : list string) (i : Z) (rows : list (list value))
    : list (Z * Series) :=
  match rows with
  | [] => []
  | r :: rows' => (i, zip cols r) :: iterrows_from cols (i + 1)%Z rows'
  end.

Definition iterrows (df : DataFrame) : list (Z * Series) :=
  iterrows_from (columns df) 0%Z (data df).

(** [df.rename(columns=mapping)] *)
Definition rename (mapping : list (string * string)) (df : DataFrame)
    : DataFrame :=
  let new_label c :=
    match List.find (fun p => String.eqb (fst p) c) mapping with
    | Some p => snd p
    | None => c
    end in
  {| columns := map new_label (columns df); data := data df |}.

End Value.

(** ** The ratings parser: [Command.parse_ratings] *)

Module Ratings.

Import Text Num Value.
Local Open Scope string_scope.

(** The loop over a sequence-like value: [None] and NaN items are
    skipped, an item [float] refuses with [ValueError] or [TypeError] is
    skipped, any other exception leaves the function. *)
Fixpoint parse_items (items : list value) (acc : list float)
    : result (list float) :=
  match items with
  | [] => Ok acc
  | item :: rest =>
      if is_None item then parse_items rest acc
      else if is_float_nan item then parse_items rest acc
      else
        match py_float item with
        | Ok f => parse_items rest (acc ++ [f])
        | Raise e =>
            if is_ValueError_or_TypeError e then parse_items rest acc
            else Raise e
        end
  end.

(** [[float(r.strip()) for r in pieces if r.strip()]]: the first piece
    [float] refuses raises [ValueError] out of the comprehension. *)
Fixpoint float_pieces (pieces : list string) : result (list float) :=
  match pieces with
  | [] => Ok []
  | r :: rest =>
      if String.eqb (strip r) "" then float_pieces rest
      else
        match float_of_str (strip r) with
        | Some f => fs ← float_pieces rest; Ok (f :: fs)
        | None => Raise ValueError
        end
  end.

(** The string branch. *)
Definition parse_ratings_str (ratings_data : string) : list float :=
  let ratings_str := strip ratings_data in
  let ratings_str :=
    if startswith "{" ratings_str && endswith "}" ratings_str
    then slice_1_m1 ratings_str else ratings_str in
  if String.eqb ratings_str "" then []
  else
    match float_pieces (split "," ratings_str) with
    | Ok fs => fs
    | Raise _ => []
    end.

(** [parse_ratings(self, ratings_data)] *)
Definition parse_ratings (ratings_data : value) : result (list float) :=
  match ratings_data with
  | VNone => Ok []
  | VList items => parse_items items []
  | VStr s => Ok (parse_ratings_str s)
  | VInt _ | VFloat _ | VDict _ =>
      match py_float ratings_data with
      | Ok f => Ok [f]
      | Raise e => if is_ValueError_or_TypeError e then Ok [] else Raise e
      end
  end.

End Ratings.

(** ** The model: [poi_importer_app/models.py] *)

Module Models.

Import Num.

(** A [PoI] object: the fields of the model.  [latitude] and [longitude]
    hold the numbers handed to the model; [avg_rating] is nullable. *)
Record PoI : Type := {
  poi_id : Z;
  name : string;
  category : string;
  latitude : float;
  longitude : float;
  ratings : list float;
  avg_rating : option float
}.

(** The table behind [PoI.objects]: its rows in insertion order.  The
    position of a row plays the part of its primary key. *)
Abbreviation table := (list PoI).

(** [sum(ratings)]: the items added from the left, starting from zero.
    (Recent CPython versions compensate the rounding of the running sum;
    no statement below depends on how the sum is rounded.) *)
Definition py_sum (l : list float) : float :=
  fold_left PrimFloat.add l 0%float.

(** [sum(self.ratings) / len(self.ratings)] *)
Definition mean (l : list float) : float :=
  PrimFloat.div (py_sum l) (Z_to_float (Z.of_nat (length l))).

(** The body of [PoI.save] before the call to [super().save]:
    [if self.ratings: self.avg_rating = sum(...) / len(...)]. *)
Definition recompute_avg (self : PoI) : PoI :=
  match ratings self with
  | [] => self
  | _ :: _ =>
      {| poi_id := poi_id self; name := name self;
         category := category self; latitude := latitude self;
         longitude := longitude self; ratings := ratings self;
         avg_rating := Some (mean (ratings self)) |}
  end.

(** Is the external identifier taken by a row other than [pk]? *)
Fixpoint taken_from (i : nat) (pk : option nat) (k : Z) (t : table) : bool :=
  match t with
  | [] => false
  | r :: t' =>
      ((poi_id r =? k)%Z && negb (bool_decide (pk = Some i)))
      || taken_from (S i) pk k t'
  end.

(** [super().save()], Django's [Model.save]: an object without a primary
    key is inserted as a new row, one with a primary key overwrites its
    row.  The store enforces [unique=True] on [poi_id] and reports a
    conflict as [IntegrityError].  The other checks of the storage engine
    (the digits of a [DecimalField], the width of a column) are outside
    the model: every object is accepted, and every field is written. *)
Definition Model_save (pk : option nat) (obj : PoI) (t : table)
    : result table :=
  if taken_from 0 pk (poi_id obj) t then Raise IntegrityError
  else
    match pk with
    | None => Ok (t ++ [obj])
    | Some i => Ok (<[i := obj]> t)
    end.

(** [PoI.save(self)]: the object as it is after the call, and the table. *)
Definition save (pk : option nat) (self : PoI) (t : table)
    : result (PoI * table) :=
  let self := recompute_avg self in
  t' ← Model_save pk self t; Ok (self, t').

(** The [defaults] of an upsert: the mutable fields. *)
Record Defaults : Type := {
  d_name : string;
  d_category : string;
  d_latitude : float;
  d_longitude : float;
  d_ratings : list float
}.

(** [PoI(poi_id=k, **defaults)]: a fresh object; [avg_rating] is unset. *)
Definition new_PoI (k : Z) (d : Defaults) : PoI :=
  {| poi_id := k; name := d_name d; category := d_category d;
     latitude := d_latitude d; longitude := d_longitude d;
     ratings := d_ratings d; avg_rating := None |}.

(** [for k, v in defaults.items(): setattr(obj, k, v)] *)
Definition set_defaults (obj : PoI) (d : Defaults) : PoI :=
  {| poi_id := poi_id obj; name := d_name d; category := d_category d;
     latitude := d_latitude d; longitude := d_longitude d;
     ratings := d_ratings d; avg_rating := avg_rating obj |}.

(** The rows whose [poi_id] is [k], each with its position. *)
Fixpoint rows_with_from (i : nat) (k : Z) (t : table) : list (nat * PoI) :=
  match t with
  | [] => []
  | r :: t' =>
      if (poi_id r =? k)%Z then (i, r) :: rows_with_from (S i) k t'
      else rows_with_from (S i) k t'
  end.

Definition rows_with (k : Z) (t : table) : list (nat * PoI) :=
  rows_with_from 0 k t.

(** [PoI.objects.update_or_create(poi_id=k, defaults=d)], Django's
    upsert: [get] the row with this [poi_id]; when there is none, create
    the object and save it; when there is one, set the defaults on it and
    save it; [get] raises [MultipleObjectsReturned] on several.  The
    answer is the object, whether it was created, and the table. *)
Definition update_or_create (k : Z) (d : Defaults) (t : table)
    : result (PoI * bool * table) :=
  match rows_with k t with
  | [] =>
      '(obj, t') ← save None (new_PoI k d) t; Ok (obj, true, t')
  | [(i, obj)] =>
      '(obj, t') ← save (Some i) (set_defaults obj d) t; Ok (obj, false, t')
  | _ => Raise MultipleObjectsReturned
  end.

End Models.

(** ** The importer: [management/commands/import_pois.py] *)

Module Importer.

Import Text Num Value Ratings Models Sanitizer.
Local Open Scope string_scope.

(** What the command writes to its output stream, one constructor per
    message with the values the message is formatted from (the row number
    is [index + 1]). *)
Inductive line : Type :=
  | W_missing_coordinates (row : Z)
  | W_invalid_coordinates (row : Z)
  | E_row (row : Z) (e : exn)
  | L_progress (success_count : Z)
  | S_import_complete (file_type : string) (imported duplicates errors : Z)
  | L_processing_xml (rows : nat) (columns : list string)
  | E_xml_not_found (file_path : string)
  | E_reading_xml (e : exn).

(** The state of one run of [process_dataframe]: the store, the three
    counters and the lines written so far. *)
Record Tally : Type := {
  db : table;
  success_count : Z;
  error_count : Z;
  duplicate_count : Z;
  out : list line
}.

(** [self.stdout.write(...)]: one more line, nothing else changes. *)
Definition write (st : Tally) (l : line) : Tally :=
  {| db := db st; success_count := success_count st;
     error_count := error_count st; duplicate_count := duplicate_count st;
     out := out st ++ [l] |}.

(** How the body of the loop stands for one row when it reaches the
    upsert: [continue] without a line, [continue] after a warning, an
    exception on its way to the handlers of the outer [try], or the key
    and the [defaults] to hand to [update_or_create]. *)
Inductive prepared : Type :=
  | Skip
  | Warn (w : line)
  | Fail (e : exn)
  | Upsert (poi_id : Z) (defaults : Defaults).

(** How the body of the loop ends for one row: [continue] without a
    line, [continue] after a warning, the upsert done, or an exception
    reaching the handlers of the outer [try]. *)
Inductive outcome : Type :=
  | Skipped
  | Warned (w : line)
  | Upserted (t : table)
  | Failed (e : exn).

Section Rows.

(** [str(v)] of a value that is not a string (the text Python prints
    for a number, a list, ...). *)
Variable repr : value -> string.

(** [str(v)] *)
Definition py_str (v : value) : string :=
  match v with
  | VStr s => s
  | _ => repr v
  end.

(** [v is None or (hasattr(v, '__len__') and len(v) == 0)] *)
Definition missing (v : value) : bool := is_None v || has_len_zero v.

(** The inner [try] block: [None] is the [continue] after the
    missing-coordinates warning. *)
Definition coordinates (row : Series) : result (option (float * float)) :=
  latitude_val ← series_item row "latitude";
  longitude_val ← series_item row "longitude";
  na_lat ← isna latitude_val;
  na ← (if (na_lat : bool) then Ok true else isna longitude_val);
  if (na : bool) then Ok (@None (float * float))
  else
    latitude ← py_float latitude_val;
    longitude ← py_float longitude_val;
    Ok (Some (latitude, longitude)).

(** The body of the loop for the row [row] labelled [index], up to
    the call of [update_or_create]. *)
Definition prepare (index : Z) (row : Series) : prepared :=
  let poi_id_val := series_get row "poi_id" VNone in
  let name_val := series_get row "name" VNone in
  let category_val := series_get row "category" VNone in
  if missing poi_id_val then Skip
  else if missing name_val then Skip
  else if missing category_val then Skip
  else
    match py_int poi_id_val with
    | Raise e => Fail e
    | Ok poi_id =>
        let name := strip (py_str name_val) in
        let category := strip (py_str category_val) in
        match coordinates row with
        | Raise e =>
            if is_ValueError_or_TypeError e
            then Warn (W_invalid_coordinates (index + 1))
            else Fail e
        | Ok None => Warn (W_missing_coordinates (index + 1))
        | Ok (Some (latitude, longitude)) =>
            match parse_ratings (series_get row "ratings" (VList [])) with
            | Raise e => Fail e
            | Ok ratings =>
                Upsert poi_id
                  {| d_name := name; d_category := category;
                     d_latitude := latitude; d_longitude := longitude;
                     d_ratings := ratings |}
            end
        end
    end.

(** The whole body of the loop, on the store [t]. *)
Definition row_outcome (index : Z) (row : Series) (t : table) : outcome :=
  match prepare index row with
  | Skip => Skipped
  | Warn w => Warned w
  | Fail e => Failed e
  | Upsert poi_id defaults =>
      match update_or_create poi_id defaults t with
      | Raise e => Failed e
      | Ok (_, _, t') => Upserted t'
      end
  end.

(** One iteration: the row's outcome and what the loop and the
    [except] clauses do with it. *)
Definition process_row (st : Tally) (ir : Z * Series) : Tally :=
  let '(index, row) := ir in
  match row_outcome index row (db st) with
  | Skipped => st
  | Warned w => write st w
  | Upserted t' =>
      let n := (success_count st + 1)%Z in
      let st' :=
        {| db := t'; success_count := n; error_count := error_count st;
           duplicate_count := duplicate_count st; out := out st |} in
      if (n mod 100 =? 0)%Z then write st' (L_progress n) else st'
  | Failed IntegrityError =>
      {| db := db st; success_count := success_count st;
         error_count := error_count st;
         duplicate_count := (duplicate_count st + 1)%Z; out := out st |}
  | Failed e =>
      write
        {| db := db st; success_count := success_count st;
           error_count := (error_count st + 1)%Z;
           duplicate_count := duplicate_count st; out := out st |}
        (E_row (index + 1) e)
  end.

(** The state at the start of [process_dataframe]. *)
Definition start (t : table) : Tally :=
  {| db := t; success_count := 0; error_count := 0;
     duplicate_count := 0; out := [] |}.

(** The loop of [process_dataframe]. *)
Definition process_rows (rows : list (Z * Series)) (st : Tally) : Tally :=
  fold_left process_row rows st.

(** [process_dataframe(self, df, file_type)] run on the store [t]: the
    state after the loop, with the summary line written. *)
Definition process_dataframe (df : DataFrame) (file_type : string)
    (t : table) : Tally :=
  let st := process_rows (iterrows df) (start t) in
  write st (S_import_complete file_type (success_count st)
              (duplicate_count st) (error_count st)).

End Rows.

Section Xml.

Variable repr : value -> string.

(** [gzip.decompress] *)
Variable gzip_decompress : list byte -> result (list byte).

(** [raw.decode('utf-8-sig', errors='replace')]: never raises. *)
Variable decode_utf8_sig : list byte -> string.

(** [pd.read_xml(StringIO(text), xpath='.//DATA_RECORD')] *)
Variable read_xml : string -> result DataFrame.

(** [len(raw) >= 2 and raw[0] == 0x1F and raw[1] == 0x8B] *)
Definition gzip_magic (raw : list byte) : bool :=
  match raw with
  | x1f :: x8b :: _ => true
  | _ => false
  end.

(** The decompression step: [except OSError: pass] keeps the bytes as
    they were read. *)
Definition gunzip (raw : list byte) : result (list byte) :=
  if gzip_magic raw then
    match gzip_decompress raw with
    | Ok plain => Ok plain
    | Raise e => if is_OSError e then Ok raw else Raise e
    end
  else Ok raw.

(** Decoding, dropping what precedes the first [<], and [lstrip]. *)
Definition decode_and_trim (raw : list byte) : string :=
  let text := decode_utf8_sig raw in
  let first_lt := find "<" text in
  let text := if (0 <? first_lt)%Z then drop (Z.to_nat first_lt) text
              else text in
  lstrip text.

(** From the bytes of the file to the sanitized text. *)
Definition xml_text (raw : list byte) : result string :=
  raw ← gunzip raw; Ok (_sanitize_ampersands (decode_and_trim raw)).

Definition column_mapping : list (string * string) :=
  [("pid", "poi_id"); ("pname", "name"); ("pcategory", "category");
   ("platitude", "latitude"); ("plongitude", "longitude");
   ("pratings", "ratings")].

(** [import_xml(self, file_path)]: [file] is what reading the file
    gives; the answer is the lines written and the store. *)
Definition import_xml (file_path : string) (file : result (list byte))
    (t : table) : list line * table :=
  match file with
  | Raise FileNotFoundError => ([E_xml_not_found file_path], t)
  | Raise e => ([E_reading_xml e], t)
  | Ok raw =>
      match text ← xml_text raw; read_xml text with
      | Raise e => ([E_reading_xml e], t)
      | Ok df =>
          let st := process_dataframe repr (rename column_mapping df)
                      "XML" t in
          (L_processing_xml (length (data df)) (columns df) :: out st,
           db st)
      end
  end.

End Xml.

End Importer.

(** ** The store as a keyed collection

    [update_or_create] seen from outside, on a table whose external
    identifiers are distinct; the theorems on the upsert go through
    it. *)

Module Keyed.

Import Models Importer.

(** The external identifiers of the rows, in order. *)
Definition ids (t : table) : list Z := poi_id <$> t.



(** The object the upsert writes: the defaults set on the row found, or
    on a fresh object, and the average recomputed as [save] does it. *)
Definition written (k : Z) (d : Defaults) (o : option PoI) : PoI :=
  recompute_avg
    match o with
    | Some r => set_defaults r d
    | None => new_PoI k d
    end.


(** The upserts a list of rows asks for, in order: those of the rows
    that reach [update_or_create]. *)
Fixpoint upserts (repr : Value.value -> string)
    (rows : list (Z * Value.Series)) : list (Z * Defaults) :=
  match rows with
  | [] => []
  | (index, row) :: rows' =>
      match prepare repr index row with
      | Upsert k d => (k, d) :: upserts repr rows'
      | _ => upserts repr rows'
      end
  end.




(** The row, if any, carries the identifier [k]. *)
Definition keyed (k : Z) (o : option PoI) : Prop :=
  forall r, o = Some r -> poi_id r = k.





End Keyed.

(** ** The wording of the specification, for comparison with the code *)

Module Wording.

Import Text Num Value Ratings Models Importer.
Local Open Scope string_scope.

(** Every character of [s] satisfies [p]. *)
Fixpoint all_chars (p : ascii -> bool) (s : string) : bool :=
  match s with
  | String c s' => p c && all_chars p s'
  | EmptyString => true
  end.

(** The names of the predefined entities. *)
Definition named_entities : list string := ["amp"; "lt"; "gt"; "quot"; "apos"].

(** The text begins with a recognized entity reference: [&name;] for a
    predefined name, [&#digits;] or [&#xhex;]. *)
Inductive entity_reference_at : string -> Prop :=
  | ref_named (n rest : string) :
      n ∈ named_entities ->
      entity_reference_at (String "&" (n ++ String ";" rest))
  | ref_decimal (ds rest : string) :
      ds <> "" -> all_chars is_digit ds = true ->
      entity_reference_at (String "&" (String "#" (ds ++ String ";" rest)))
  | ref_hex (hs rest : string) :
      hs <> "" -> all_chars is_hex hs = true ->
      entity_reference_at
        (String "&" (String "#" (String "x" (hs ++ String ";" rest)))).


(** A value counts as missing: the null marker, or an empty sequence or
    string. *)
Definition counts_as_missing (v : value) : Prop :=
  v = VNone \/ v = VStr "" \/ v = VList [] \/ v = VDict [].

(** The field [key] of the row is missing: absent from the row, or
    holding a value that counts as missing. *)
Definition field_missing (row : Series) (key : string) : Prop :=
  match series_lookup row key with
  | Some v => counts_as_missing v
  | None => True
  end.

(** The mandatory fields are all there. *)
Definition passes_presence_check (row : Series) : Prop :=
  ~ field_missing row "poi_id" /\ ~ field_missing row "name"
  /\ ~ field_missing row "category".

(** A coordinate that is missing: the null marker or the not-a-number
    marker. *)
Definition nan_marker (v : value) : Prop :=
  v = VNone \/ exists f, v = VFloat f /\ PrimFloat.is_nan f = true.

(** A coordinate the float coercion refuses as a wrong value or a wrong
    type. *)
Definition float_refused (v : value) : Prop :=
  py_float v = Raise ValueError \/ py_float v = Raise TypeError.

(** The row has been validated: the mandatory fields are there and not
    empty, the identifier coerces to the integer [k], both coordinates
    are there, neither null nor NaN, and coerce to the floats [x] and
    [y]; [nm] and [cat] are the raw name and category. *)
Definition row_validated (row : Series) (k : Z) (nm cat : value)
    (x y : float) : Prop :=
  exists pid lat lon,
    series_lookup row "poi_id" = Some pid /\ ~ counts_as_missing pid
    /\ py_int pid = Ok k
    /\ series_lookup row "name" = Some nm /\ ~ counts_as_missing nm
    /\ series_lookup row "category" = Some cat /\ ~ counts_as_missing cat
    /\ series_lookup row "latitude" = Some lat /\ isna lat = Ok false
    /\ py_float lat = Ok x
    /\ series_lookup row "longitude" = Some lon /\ isna lon = Ok false
    /\ py_float lon = Ok y.

(** The ratings string, as the specification words it: the pieces
    between commas, each trimmed, the empty ones dropped. *)
Definition pieces (body : string) : list string :=
  List.filter (fun p => negb (String.eqb p "")) (map strip (split "," body)).

(** Every piece coerced to a float, or nothing when one of them fails. *)
Fixpoint coerce_all (ps : list string) : option (list float) :=
  match ps with
  | [] => Some []
  | p :: ps' =>
      match float_of_str p, coerce_all ps' with
      | Some f, Some fs => Some (f :: fs)
      | _, _ => None
      end
  end.

(** All-or-nothing: the floats when every piece coerces, else the empty
    sequence. *)
Definition all_or_nothing (ps : list string) : list float :=
  match coerce_all ps with
  | Some fs => fs
  | None => []
  end.

End Wording.

(** ** Concrete inputs for the examples *)

Module Examples.

Import Value Models Importer.
Local Open Scope string_scope.

(** The text of the values that are not strings: the names and
    categories of the examples are strings, so it is never consulted. *)
Definition no_repr (v : value) : string := "".

(** A complete row: [poi_id], [name], [category], both coordinates and a
    ratings string. *)
Definition row_cafe : Series :=
  [("poi_id", VInt 1); ("name", VStr " Cafe "); ("category", VStr "Food");
   ("latitude", VFloat 1.5%float); ("longitude", VStr "2.5");
   ("ratings", VStr "{4.0}")].

(** The same record without ratings. *)
Definition row_cafe_unrated : Series :=
  [("poi_id", VInt 1); ("name", VStr " Cafe "); ("category", VStr "Food");
   ("latitude", VFloat 1.5%float); ("longitude", VStr "2.5");
   ("ratings", VStr "")].


(** No category. *)
Definition row_no_category : Series :=
  [("poi_id", VInt 3); ("name", VStr "Bar"); ("category", VNone);
   ("latitude", VFloat 1.5%float); ("longitude", VFloat 2.5%float)].

(** A NaN latitude. *)
Definition row_nan_latitude : Series :=
  [("poi_id", VInt 4); ("name", VStr "Bar"); ("category", VStr "Food");
   ("latitude", VFloat nan); ("longitude", VFloat 2.5%float)].

(** No latitude field at all. *)
Definition row_no_latitude : Series :=
  [("poi_id", VInt 5); ("name", VStr "Bar"); ("category", VStr "Food");
   ("longitude", VFloat 2.5%float)].

(** An identifier that is not a number, and a NaN latitude. *)
Definition row_bad_id_nan_latitude : Series :=
  [("poi_id", VStr "x"); ("name", VStr "Bar"); ("category", VStr "Food");
   ("latitude", VFloat nan); ("longitude", VFloat 2.5%float)].

(** A latitude that is an integer too large for a float. *)
Definition row_huge_latitude : Series :=
  [("poi_id", VInt 6); ("name", VStr "Bar"); ("category", VStr "Food");
   ("latitude", VInt (10 ^ 400)); ("longitude", VFloat 2.5%float)].

(** A file of two rows for the same identifier: the rated record, then
    the same record without ratings. *)
Definition df_cafe : DataFrame :=
  {| columns := ["poi_id"; "name"; "category"; "latitude"; "longitude";
                 "ratings"];
     data := [[VInt 1; VStr " Cafe "; VStr "Food"; VFloat 1.5%float;
               VStr "2.5"; VStr "{4.0}"];
              [VInt 1; VStr "Cafe"; VStr "Drinks"; VFloat 1.5%float;
               VStr "2.5"; VStr ""]] |}.

(** A stored record with one rating and its average. *)
Definition cafe_rated : PoI :=
  {| poi_id := 1; name := "Cafe"; category := "Food";
     latitude := 1.5%float; longitude := 2.5%float;
     ratings := [4%float]; avg_rating := Some 4%float |}.

(** The defaults of an update that carries no ratings. *)
Definition unrated : Defaults :=
  {| d_name := "Cafe"; d_category := "Food"; d_latitude := 1.5%float;
     d_longitude := 2.5%float; d_ratings := [] |}.

(** The record after that update: no ratings, the old average. *)
Definition cafe_stale : PoI :=
  {| poi_id := 1; name := "Cafe"; category := "Food";
     latitude := 1.5%float; longitude := 2.5%float;
     ratings := []; avg_rating := Some 4%float |}.

(** The two magic bytes and nothing else: a gzip stream cut short. *)
Definition magic_only : list byte := [x1f; x8b].

(** [gzip.decompress] on a stream that ends before its end-of-stream
    marker: [EOFError]. *)
Definition truncated_stream (raw : list byte) : result (list byte) :=
  Raise EOFError.

(** [gzip.decompress] on bytes that are no gzip stream: [BadGzipFile]. *)
Definition not_a_gzip_stream (raw : list byte) : result (list byte) :=
  Raise BadGzipFile.

(** A decoder for the examples: every byte one character. *)
Definition one_char_per_byte (raw : list byte) : string :=
  string_of_list_byte raw.

(** A reader for the examples: a frame without records. *)
Definition no_records (text : string) : result DataFrame :=
  Ok {| columns := []; data := [] |}.

(** A stored record with another identifier. *)
Definition bakery : PoI :=
  {| poi_id := 2; name := "Bakery"; category := "Food";
     latitude := 3.5%float; longitude := 4.5%float;
     ratings := [5%float; 3%float]; avg_rating := Some 4%float |}.



(** Readers that find no file. *)
Definition no_csv (file_path : string) : result DataFrame :=
  Raise FileNotFoundError.

Definition no_bytes (file_path : string) : result (list byte) :=
  Raise FileNotFoundError.

End Examples.

(** ** The command: [handle], [import_csv] and the choice of the importer *)

Module Command.

Import Text Value Models Importer.
Local Open Scope string_scope.

(** [c.lower()] on one character: the capital letters [A]-[Z] and, above
    the ASCII range, the capitals from [À] to [Þ] except the sign [×]. *)
Definition lower_char (c : ascii) : ascii :=
  let n := code c in
  if ((65 <=? n)%Z && (n <=? 90)%Z)
     || ((192 <=? n)%Z && (n <=? 222)%Z && negb (n =? 215)%Z)
  then ascii_of_N (Z.to_N (n + 32)) else c.

(** [s.lower()] *)
Fixpoint lower (s : string) : string :=
  match s with
  | String c s' => String (lower_char c) (lower s')
  | EmptyString => EmptyString
  end.

(** [file_path.split('.')[-1].lower()] *)
Definition file_extension (file_path : string) : string :=
  lower (List.last (split "." file_path) "").

(** What the command writes: the lines of the importers already listed,
    and the messages of [handle] and [import_csv]. *)
Inductive message : Type :=
  | M_reset
  | M_processing_file (file_path : string)
  | M_unsupported (file_path : string)
  | M_processing_csv (rows : nat) (columns : list string)
  | E_reading_csv (e : exn)
  | M_line (l : line).

Section Files.

Variable repr : value -> string.

(** [pd.read_csv(file_path)] *)
Variable read_csv : string -> result DataFrame.

(** [import_json(self, file_path)] on a store, taken as given: the column
    operations of pandas it relies on are not part of this development. *)
Variable import_json : string -> table -> list message * table.

(** [open(file_path, 'rb').read()] *)
Variable read_bytes : string -> result (list byte).

Variable gzip_decompress : list byte -> result (list byte).

Variable decode_utf8_sig : list byte -> string.

Variable read_xml : string -> result DataFrame.

(** The [column_mapping] of [import_csv], in the order of the dict. *)
Definition csv_column_mapping : list (string * string) :=
  [("poi_id", "poi_id"); ("poi_name", "name"); ("poi_category", "category");
   ("poi_latitude", "latitude"); ("poi_longitude", "longitude");
   ("poi_ratings", "ratings")].

(** One turn of the renaming loop:
    [if old_name in df.columns: df = df.rename(columns={old_name: new_name})] *)
Definition rename_if_present (df : DataFrame) (p : string * string)
    : DataFrame :=
  if existsb (String.eqb (fst p)) (columns df) then rename [p] df else df.

(** The renaming loop of [import_csv]. *)
Definition rename_csv_columns (df : DataFrame) : DataFrame :=
  fold_left rename_if_present csv_column_mapping df.

(** [import_csv(self, file_path)] on the store [t]. *)
Definition import_csv (file_path : string) (t : table)
    : list message * table :=
  match read_csv file_path with
  | Raise e => ([E_reading_csv e], t)
  | Ok df =>
      let st := process_dataframe repr (rename_csv_columns df) "CSV" t in
      (M_processing_csv (length (data df)) (columns df)
         :: map M_line (out st),
       db st)
  end.

(** The body of the loop of [handle] for one path. *)
Definition handle_file (file_path : string) (t : table)
    : list message * table :=
  let file_extension := file_extension file_path in
  let '(ms, t') :=
    if String.eqb file_extension "csv" then import_csv file_path t
    else if String.eqb file_extension "json" then import_json file_path t
    else if String.eqb file_extension "xml" then
      let '(ls, t') :=
        import_xml repr gzip_decompress decode_utf8_sig read_xml file_path
          (read_bytes file_path) t in
      (map M_line ls, t')
    else ([M_unsupported file_path], t) in
  (M_processing_file file_path :: ms, t').

(** The loop of [handle] over the paths. *)
Fixpoint handle_files (file_paths : list string) (t : table)
    : list message * table :=
  match file_paths with
  | [] => ([], t)
  | file_path :: rest =>
      let '(ms, t') := handle_file file_path t in
      let '(ms', t'') := handle_files rest t' in
      ((ms ++ ms')%list, t'')
  end.

(** [handle(self, file_paths=..., reset=...)] on the store [t]. *)
Definition handle (reset : bool) (file_paths : list string) (t : table)
    : list message * table :=
  if reset then
    let '(ms, t') := handle_files file_paths [] in (M_reset :: ms, t')
  else handle_files file_paths t.

End Files.

End Command.

(** ** Counting the lines and the rows *)

Module Tallying.

Import Text Value Models Importer Wording.
Local Open Scope string_scope.

(** The row is skipped by the presence check. *)
Definition is_skipped (row : Series) : bool :=
  missing (series_get row "poi_id" VNone)
  || missing (series_get row "name" VNone)
  || missing (series_get row "category" VNone).

(** The kinds of the lines. *)
Definition is_warning (l : line) : bool :=
  match l with
  | W_missing_coordinates _ | W_invalid_coordinates _ => true
  | _ => false
  end.

Definition is_row_error (l : line) : bool :=
  match l with
  | E_row _ _ => true
  | _ => false
  end.

Definition is_progress (l : line) : bool :=
  match l with
  | L_progress _ => true
  | _ => false
  end.

(** How many lines of a kind were written. *)
Definition count (p : line -> bool) (ls : list line) : Z :=
  Z.of_nat (length (List.filter p ls)).

(** The progress lines for [n] successes: one for every hundred. *)
Definition progress_lines (n : Z) : list line :=
  (fun i => L_progress (100 * i)) <$> seqZ 1 (n / 100).

(** The row number a row-level line reports. *)
Definition row_number (l : line) : option Z :=
  match l with
  | W_missing_coordinates n | W_invalid_coordinates n | E_row n _ => Some n
  | _ => None
  end.



(** The name and the category of the record carry no white space at
    either end. *)
Definition trimmed (r : PoI) : Prop :=
  strip (name r) = name r /\ strip (category r) = category r.

End Tallying.

(** * Theorems *)

(** ** The ampersand step of the sanitizer *)

Section SanitizerFacts.

Import Text Re Sanitizer Wording.
Local Open Scope string_scope.

(** Membership of a literal name in [named_entities]. *)
Ltac in_named_entities :=
  unfold named_entities; rewrite !elem_of_cons; tauto.

Lemma lit_match {A} (w s : string) (k : string -> option A) :
  match_k (lit w) s k
  = if startswith w s then k (Text.drop (String.length w) s) else None.
Proof.
  revert s. induction w as [|c w IH]; intros s; [done|].
  destruct s as [|c' s]; [done|].
  cbn [lit match_k String.length Text.drop startswith].
  destruct (Ascii.eqb c' c); [apply IH|done].
Qed.

Lemma startswith_app (w s : string) :
  startswith w s = true <-> exists rest, s = w ++ rest.
Proof.
  revert s. induction w as [|c w IH]; intros s; cbn [startswith].
  - split; simpl; eauto.
  - destruct s as [|c' s]; [split; [done|by intros [? ?]]|].
    destruct (Ascii.eqb_spec c' c) as [->|Hne]; cbn [andb].
    + rewrite IH. split; intros [r Hr]; exists r; simpl in *; congruence.
    + split; [done|]. intros [r Hr]. simpl in Hr. congruence.
Qed.

(** [c+;] with [;] outside the class: a run of the class, then [;]. *)
Lemma plus_semicolon (p : ascii -> bool) (s : string) :
  p ";"%char = false ->
  plus_k p s (fun s' => match_k (Chr ";") s' (fun _ => Some tt)) = Some tt
  <-> exists ds rest,
        ds <> "" /\ all_chars p ds = true /\ s = ds ++ String ";" rest.
Proof.
  intros Hp. induction s as [|c s IH]; cbn [plus_k].
  - split; [done|]. intros (ds & rest & Hne & _ & E). by destruct ds.
  - destruct (p c) eqn:Hc.
    + destruct (plus_k p s _) as [[]|] eqn:Hrec.
      * split; [intros _|done].
        destruct (proj1 IH eq_refl) as (ds & rest & _ & Hall & ->).
        exists (String c ds), rest. simpl. by rewrite Hc, Hall.
      * cbn [match_k]. destruct s as [|c' s'].
        { split; [done|]. intros (ds & rest & Hne & _ & E).
          destruct ds as [|d [|]]; simpl in E; congruence. }
        destruct (Ascii.eqb_spec c' ";") as [->|Hc'].
        { split; [intros _|done]. exists (String c ""), s'.
          simpl. by rewrite Hc. }
        split; [done|]. intros (ds & rest & Hne & Hall & E).
        destruct ds as [|d ds]; [done|]. simpl in E, Hall.
        injection E as -> E. apply andb_prop in Hall as [_ Hall].
        destruct ds as [|d' ds].
        { simpl in E. congruence. }
        assert (None = Some tt) as Habs; [|done].
        apply IH. exists (String d' ds), rest. by rewrite E.
    + split; [done|]. intros (ds & rest & Hne & Hall & E).
      destruct ds as [|d ds]; [done|]. simpl in E, Hall.
      injection E as -> _. by rewrite Hc in Hall.
Qed.

(** The lookahead of the pattern succeeds exactly on the tails of the
    recognized entity references. *)
Lemma entity_tail_spec (s : string) :
  match_k entity_tail s (fun _ => Some tt) = Some tt
  <-> entity_reference_at (String "&" s).
Proof.
  unfold entity_tail. cbn [match_k]. rewrite !lit_match.
  split.
  - destruct (startswith "amp;" s) eqn:H1.
    { intros _. apply startswith_app in H1 as [r ->].
      apply (ref_named "amp"). in_named_entities. }
    destruct (startswith "lt;" s) eqn:H2.
    { intros _. apply startswith_app in H2 as [r ->].
      apply (ref_named "lt"). in_named_entities. }
    destruct (startswith "gt;" s) eqn:H3.
    { intros _. apply startswith_app in H3 as [r ->].
      apply (ref_named "gt"). in_named_entities. }
    destruct (startswith "quot;" s) eqn:H4.
    { intros _. apply startswith_app in H4 as [r ->].
      apply (ref_named "quot"). in_named_entities. }
    destruct (startswith "apos;" s) eqn:H5.
    { intros _. apply startswith_app in H5 as [r ->].
      apply (ref_named "apos"). in_named_entities. }
    destruct s as [|c s]; [done|].
    cbn [startswith].
    destruct (Ascii.eqb_spec c "#") as [->|Hc]; [|done].
    destruct (plus_k is_digit s _) as [[]|] eqn:Hd.
    { intros _. apply plus_semicolon in Hd as (ds & r & ? & ? & ->); [|done].
      by apply ref_decimal. }
    destruct s as [|c' s]; [done|]. cbn [andb startswith].
    destruct (Ascii.eqb_spec c' "x") as [->|Hc']; [|done].
    cbn [andb String.length Text.drop]. intros Hh.
    apply plus_semicolon in Hh as (hs & r & ? & ? & ->); [|done].
    by apply ref_hex.
  - intros Href.
    inversion Href as [n r Hn E|ds r Hne Hall E|hs r Hne Hall E]; subst.
    + unfold named_entities in Hn.
      repeat (apply elem_of_cons in Hn as [->|Hn]; [reflexivity|]).
      by apply elem_of_nil in Hn.
    + assert (plus_k is_digit (ds ++ String ";" r)
                (fun s' => match_k (Chr ";") s' (fun _ => Some tt)) = Some tt)
        as Hd by (apply plus_semicolon; eauto).
      cbn in Hd |- *. by rewrite Hd.
    + assert (plus_k is_hex (hs ++ String ";" r)
                (fun s' => match_k (Chr ";") s' (fun _ => Some tt)) = Some tt)
        as Hd by (apply plus_semicolon; eauto).
      cbn in Hd |- *. by rewrite Hd.
Qed.

(** One step of the substitution: what [_sanitize_ampersands] does with
    the first character. *)
Lemma sanitize_cons (c : ascii) (s : string) :
  _sanitize_ampersands (String c s)
  = if Ascii.eqb c "&" then
      match match_k entity_tail s (fun _ => Some tt) with
      | Some _ => String "&" (_sanitize_ampersands s)
      | None => "&amp;" ++ _sanitize_ampersands s
      end
    else String c (_sanitize_ampersands s).
Proof.
  unfold _sanitize_ampersands, sub, pattern.
  cbn [sub_from match_prefix match_k].
  destruct (Ascii.eqb_spec c "&") as [->|]; [|done].
  destruct (match_k entity_tail s _) as [[]|]; [done|].
  cbn [String.length].
  replace (S (String.length s) - String.length s)%nat with 1%nat by lia.
  done.
Qed.



(** Text without an ampersand passes through unchanged. *)
Lemma sanitize_app_plain (w rest : string) :
  all_chars (fun c => negb (Ascii.eqb c "&")) w = true ->
  _sanitize_ampersands (w ++ rest) = w ++ _sanitize_ampersands rest.
Proof.
  induction w as [|c w IH]; [done|]. cbn [all_chars String.append].
  intros [Hc Hw]%andb_prop. rewrite sanitize_cons.
  apply negb_true_iff in Hc. rewrite Hc. by rewrite IH.
Qed.

Lemma all_chars_impl (p q : ascii -> bool) (s : string) :
  (forall c, p c = true -> q c = true) ->
  all_chars p s = true -> all_chars q s = true.
Proof.
  intros Hpq. induction s as [|c s IH]; [done|]. cbn [all_chars].
  intros [Hc Hs]%andb_prop. by rewrite (Hpq _ Hc), IH.
Qed.

Lemma digit_not_amp (c : ascii) :
  is_digit c = true -> negb (Ascii.eqb c "&") = true.
Proof. destruct (Ascii.eqb_spec c "&") as [->|]; [by vm_compute|done]. Qed.

Lemma hex_not_amp (c : ascii) :
  is_hex c = true -> negb (Ascii.eqb c "&") = true.
Proof. destruct (Ascii.eqb_spec c "&") as [->|]; [by vm_compute|done]. Qed.

(** A recognized reference is still one after the text behind the
    ampersand has been sanitized. *)
Lemma reference_preserved (s : string) :
  entity_reference_at (String "&" s) ->
  entity_reference_at (String "&" (_sanitize_ampersands s)).
Proof.
  inversion 1 as [n r Hn E|ds r Hne Hall E|hs r Hne Hall E]; subst.
  - rewrite sanitize_app_plain.
    + rewrite sanitize_cons. cbn [Ascii.eqb Bool.eqb]. by apply ref_named.
    + unfold named_entities in Hn.
      repeat (apply elem_of_cons in Hn as [->|Hn]; [reflexivity|]).
      by apply elem_of_nil in Hn.
  - rewrite sanitize_cons. cbn [Ascii.eqb Bool.eqb].
    rewrite sanitize_app_plain
      by (eapply all_chars_impl, Hall; apply digit_not_amp).
    rewrite sanitize_cons. cbn [Ascii.eqb Bool.eqb]. by apply ref_decimal.
  - rewrite !sanitize_cons. cbn [Ascii.eqb Bool.eqb].
    rewrite sanitize_app_plain
      by (eapply all_chars_impl, Hall; apply hex_not_amp).
    rewrite sanitize_cons. cbn [Ascii.eqb Bool.eqb]. by apply ref_hex.
Qed.

(** Claim C10.  The ampersand step is idempotent: a second pass changes
    nothing, since every ampersand of the output starts a recognized
    reference (an old one, or the [&amp;] just written). *)
Theorem sanitize_ampersands_idempotent (s : string) :
  _sanitize_ampersands (_sanitize_ampersands s) = _sanitize_ampersands s.
Proof.
  induction s as [|c s IH]; [done|].
  rewrite sanitize_cons. destruct (Ascii.eqb_spec c "&") as [->|Hc].
  - destruct (match_k entity_tail s _) as [[]|] eqn:Hm.
    + rewrite sanitize_cons. cbn [Ascii.eqb Bool.eqb].
      apply entity_tail_spec, reference_preserved, entity_tail_spec in Hm.
      by rewrite Hm, IH.
    + change ("&amp;" ++ _sanitize_ampersands s)
        with (String "&" ("amp;" ++ _sanitize_ampersands s)).
      rewrite sanitize_cons. cbn [Ascii.eqb Bool.eqb].
      assert (match_k entity_tail ("amp;" ++ _sanitize_ampersands s)
                (fun _ => Some tt) = Some tt) as ->.
      { apply entity_tail_spec, (ref_named "amp").
        in_named_entities. }
      rewrite (sanitize_app_plain "amp;") by done. by rewrite IH.
  - rewrite sanitize_cons.
    destruct (Ascii.eqb_spec c "&"); [done|]. by rewrite IH.
Qed.

End SanitizerFacts.

(** ** The ratings parser *)

Section RatingsFacts.

Import Text Num Value Ratings Wording.
Local Open Scope string_scope.

Lemma endswith_app (c : ascii) (s : string) :
  endswith c s = true <-> exists inner, s = inner ++ String c "".
Proof.
  induction s as [|c' s IH]; cbn [endswith].
  - split; [done|]. intros [[|? ?] E]; simpl in E; congruence.
  - destruct s as [|c'' s].
    + destruct (Ascii.eqb_spec c' c) as [->|Hne].
      * split; [intros _; by exists ""|done].
      * split; [done|]. intros [[|? [|? ?]] E]; simpl in E; congruence.
    + rewrite IH. split.
      * intros [inner ->]. by exists (String c' inner).
      * intros [[|d inner] E]; simpl in E; [congruence|].
        injection E as -> E. eauto.
Qed.

Lemma substring_0_app (inner rest : string) :
  substring 0 (String.length inner) (inner ++ rest) = inner.
Proof.
  induction inner as [|c inner IH]; simpl; [by destruct rest|by rewrite IH].
Qed.

Lemma length_app_1 (inner : string) (c : ascii) :
  String.length (inner ++ String c "") = S (String.length inner).
Proof. induction inner as [|d inner IH]; simpl; [done|by rewrite IH]. Qed.

Lemma append_last_inj (a b : string) (c : ascii) :
  a ++ String c "" = b ++ String c "" -> a = b.
Proof.
  revert b. induction a as [|x a IH]; intros [|y b] E; simpl in E.
  - done.
  - injection E as _ E. by destruct b.
  - injection E as _ E. by destruct a.
  - injection E as -> E. by rewrite (IH b E).
Qed.

(** The test of the code holds exactly on a text wrapped in braces, and the
    slice then is what stands between them. *)
Lemma braces_spec (t : string) :
  startswith "{" t && endswith "}" t = true
  <-> exists inner, t = String "{" (inner ++ "}").
Proof.
  destruct t as [|c t]; [split; [done|by intros [? ?]]|].
  cbn [startswith]. rewrite andb_true_r.
  destruct (Ascii.eqb_spec c "{") as [->|Hc]; cbn [andb].
  - destruct t as [|c' t].
    + split; [done|]. intros [[|? ?] E]; simpl in E; congruence.
    + change (endswith "}" (String "{" (String c' t)))
        with (endswith "}" (String c' t)).
      rewrite endswith_app. split; intros [inner E]; exists inner; congruence.
  - split; [done|]. intros [inner E]. congruence.
Qed.

Lemma slice_braces (inner : string) :
  slice_1_m1 (String "{" (inner ++ "}")) = inner.
Proof.
  unfold slice_1_m1. cbn [String.length substring].
  rewrite length_app_1.
  replace (S (S (String.length inner)) - 2)%nat with (String.length inner)
    by lia.
  apply substring_0_app.
Qed.

(** The comprehension of the code against the wording: trim, drop the
    empty pieces, coerce all or fail. *)
Lemma float_pieces_spec (l : list string) :
  float_pieces l
  = match coerce_all (List.filter (fun p => negb (String.eqb p ""))
                        (map strip l)) with
    | Some fs => Ok fs
    | None => Raise ValueError
    end.
Proof.
  induction l as [|r l IH]; [done|].
  cbn [float_pieces map List.filter].
  destruct (String.eqb (strip r) ""); cbn [negb]; [done|].
  cbn [coerce_all]. destruct (float_of_str (strip r)); [|done].
  rewrite IH. by destruct (coerce_all _).
Qed.

Lemma coerce_all_fails (ps : list string) (p : string) :
  p ∈ ps -> float_of_str p = None -> coerce_all ps = None.
Proof.
  induction 1 as [p ps|p q ps _ IH]; intros Hp; cbn [coerce_all].
  - by rewrite Hp.
  - rewrite (IH Hp). by destruct (float_of_str q).
Qed.

(** Claim C5.  The string branch of the ratings parser: braces around the
    trimmed text are stripped when it is wrapped in a pair of them; the
    rest is split on commas, each piece trimmed, the empty pieces dropped
    and the others coerced to float; when one piece fails the coercion the
    answer is the empty sequence and not the pieces that coerce. *)
Theorem parse_ratings_string (s body : string) :
  (forall inner, strip s = String "{" (inner ++ "}") -> body = inner) ->
  ((forall inner, strip s <> String "{" (inner ++ "}")) -> body = strip s) ->
  parse_ratings (VStr s) = Ok (all_or_nothing (pieces body))
  /\ (forall p, p ∈ pieces body -> float_of_str p = None ->
        parse_ratings (VStr s) = Ok []).
Proof.
  intros Hwrapped Hplain.
  assert (parse_ratings (VStr s) = Ok (all_or_nothing (pieces body))) as Hmain.
  { cbn [parse_ratings]. f_equal. unfold parse_ratings_str.
    destruct (startswith "{" (strip s) && endswith "}" (strip s)) eqn:Hb.
    - apply braces_spec in Hb as [inner Hs].
      rewrite Hs, slice_braces, <-(Hwrapped inner Hs).
      unfold all_or_nothing, pieces.
      destruct (String.eqb_spec body "") as [->|_]; [done|].
      rewrite float_pieces_spec. by destruct (coerce_all _).
    - rewrite <-Hplain.
      + unfold all_or_nothing, pieces.
        destruct (String.eqb_spec body "") as [->|_]; [done|].
        rewrite float_pieces_spec. by destruct (coerce_all _).
      + intros inner Hs.
        assert (startswith "{" (strip s) && endswith "}" (strip s) = true)
          by (apply braces_spec; eauto).
        congruence. }
  split; [done|]. intros p Hin Hp. rewrite Hmain. unfold all_or_nothing.
  by rewrite (coerce_all_fails _ _ Hin Hp).
Qed.

Lemma parse_ratings_string_witness :
  parse_ratings (VStr " {1.0, 2.5 ,,3} ")
    = Ok (all_or_nothing (pieces "1.0, 2.5 ,,3"))
  /\ (forall p, p ∈ pieces "1.0, 2.5 ,,3" -> float_of_str p = None ->
        parse_ratings (VStr " {1.0, 2.5 ,,3} ") = Ok []).
Proof.
  apply (parse_ratings_string " {1.0, 2.5 ,,3} " "1.0, 2.5 ,,3").
  - intros inner E.
    change (strip " {1.0, 2.5 ,,3} ")
      with (String "{" ("1.0, 2.5 ,,3" ++ "}")) in E.
    injection E as E.
    exact (append_last_inj "1.0, 2.5 ,,3" inner "}" E).
  - intros H. exfalso. apply (H "1.0, 2.5 ,,3"). reflexivity.
Defined.

(** Claim C4, as the code has it.  The string [{1.0, 2.5, bad, 3}] parses
    to the empty sequence, because the piece [bad] fails the coercion and
    the string branch is all-or-nothing; without that piece the braces are
    stripped and the three numbers are kept. *)
Theorem parse_ratings_bad_piece :
  parse_ratings (VStr "{1.0, 2.5, bad, 3}") = Ok []
  /\ parse_ratings (VStr "{1.0, 2.5, 3}") = Ok [1; 2.5; 3]%float.
Proof. split; vm_compute; reflexivity. Qed.

(** The claim as stated fails: the answer is not [[1.0, 2.5, 3.0]]. *)
Lemma parse_ratings_bad_piece_not_partial :
  parse_ratings (VStr "{1.0, 2.5, bad, 3}") <> Ok [1; 2.5; 3]%float.
Proof. vm_compute. discriminate. Qed.

End RatingsFacts.

(** ** The model and the upsert *)

Section ModelFacts.

Import Models Keyed.

Implicit Types (t : table) (k : Z) (d : Defaults) (r : PoI).

Lemma poi_id_recompute_avg r : poi_id (recompute_avg r) = poi_id r.
Proof. unfold recompute_avg. by destruct (ratings r). Qed.

































End ModelFacts.

(** ** The row loop: presence check, coordinates, upsert *)

Section RowFacts.

Import Text Num Value Ratings Models Importer Keyed Wording.
Local Open Scope string_scope.

Variable repr : value -> string.

Lemma missing_spec (v : value) : missing v = true <-> counts_as_missing v.
Proof.
  unfold counts_as_missing. split.
  - destruct v as [| | |[|? ?]|[|? ?]|[|? ?]]; cbn; intros; auto; done.
  - intros [->|[->|[->| ->]]]; done.
Qed.

Lemma field_missing_spec (row : Series) (key : string) :
  missing (series_get row key VNone) = true <-> field_missing row key.
Proof.
  unfold field_missing, series_get.
  destruct (series_lookup row key) as [v|]; [apply missing_spec|done].
Qed.

Lemma field_present (row : Series) (key : string) :
  ~ field_missing row key -> missing (series_get row key VNone) = false.
Proof.
  intros H. destruct (missing _) eqn:E; [|done].
  by apply field_missing_spec in E.
Qed.

(** Claim C7.  A row in which [poi_id], [name] or [category] is missing
    (absent, null, or an empty sequence or string) is skipped silently:
    the state after the row is the state before it, so nothing is
    persisted, no line is written and no counter moves. *)
Theorem missing_field_skips_row (st : Tally) (index : Z) (row : Series) :
  field_missing row "poi_id" \/ field_missing row "name"
  \/ field_missing row "category" ->
  row_outcome repr index row (db st) = Skipped
  /\ process_row repr st (index, row) = st.
Proof.
  intros H.
  assert (prepare repr index row = Skip) as Hskip.
  { unfold prepare.
    destruct (missing (series_get row "poi_id" VNone)) eqn:E1; [done|].
    destruct (missing (series_get row "name" VNone)) eqn:E2; [done|].
    destruct (missing (series_get row "category" VNone)) eqn:E3; [done|].
    destruct H as [H|[H|H]]; apply field_missing_spec in H; congruence. }
  unfold process_row, row_outcome. by rewrite Hskip.
Qed.

Lemma isna_raises (v : value) (e : exn) : isna v = Raise e -> e = ValueError.
Proof.
  revert v e. fix IH 1. intros [| | | |l|] e; cbn; try discriminate.
  destruct l as [|x [|y l]]; [by intros [= <-]|apply IH|by intros [= <-]].
Qed.

Lemma isna_nan_marker (v : value) : nan_marker v -> isna v = Ok true.
Proof. intros [->|(f & -> & Hf)]; cbn; [done|by rewrite Hf]. Qed.

Lemma py_float_raises (v : value) (e : exn) :
  py_float v = Raise e ->
  e = ValueError \/ e = TypeError \/ e = OverflowError.
Proof.
  destruct v; cbn; try (intros [= <-]; auto; done).
  - unfold float_of_int. destruct (PrimFloat.is_infinity _); [|done].
    intros [= <-]; auto.
  - destruct (float_of_str s); [done|]. intros [= <-]; auto.
Qed.

(** The coordinate block of a row that has both fields. *)
Lemma coordinates_present (row : Series) (lat lon : value) :
  series_lookup row "latitude" = Some lat ->
  series_lookup row "longitude" = Some lon ->
  coordinates row
  = match isna lat with
    | Raise e => Raise e
    | Ok true => Ok None
    | Ok false =>
        match isna lon with
        | Raise e => Raise e
        | Ok true => Ok None
        | Ok false =>
            match py_float lat with
            | Raise e => Raise e
            | Ok x =>
                match py_float lon with
                | Raise e => Raise e
                | Ok y => Ok (Some (x, y))
                end
            end
        end
    end.
Proof.
  intros Hlat Hlon. unfold coordinates, series_item. rewrite Hlat, Hlon. cbn.
  destruct (isna lat) as [[|]|]; cbn; try done;
    destruct (isna lon) as [[|]|]; cbn; try done;
    destruct (py_float lat); cbn; try done;
    by destruct (py_float lon).
Qed.

Lemma coordinates_absent (row : Series) :
  series_lookup row "latitude" = None \/ series_lookup row "longitude" = None ->
  coordinates row = Raise KeyError.
Proof.
  unfold coordinates, series_item. intros [H|H]; rewrite H; [done|].
  by destruct (series_lookup row "latitude").
Qed.

(** A row that passes the presence check and whose identifier is an
    integer reaches the coordinate block. *)
Lemma prepare_coordinates (index : Z) (row : Series) (k : Z) :
  passes_presence_check row ->
  py_int (series_get row "poi_id" VNone) = Ok k ->
  prepare repr index row
  = match coordinates row with
    | Raise e =>
        if is_ValueError_or_TypeError e
        then Warn (W_invalid_coordinates (index + 1))
        else Fail e
    | Ok None => Warn (W_missing_coordinates (index + 1))
    | Ok (Some (latitude, longitude)) =>
        match parse_ratings (series_get row "ratings" (VList [])) with
        | Raise e => Fail e
        | Ok ratings =>
            Upsert k
              {| d_name := strip (py_str repr (series_get row "name" VNone));
                 d_category :=
                   strip (py_str repr (series_get row "category" VNone));
                 d_latitude := latitude; d_longitude := longitude;
                 d_ratings := ratings |}
        end
    end.
Proof.
  intros (H1 & H2 & H3) Hk. unfold prepare.
  by rewrite !field_present, Hk by done.
Qed.

(** A row that lacks a coordinate field raises [KeyError] in the
    coordinate block, which the inner handler does not catch: the row is
    counted as an error. *)
Lemma coordinate_field_absent (st : Tally) (index : Z) (row : Series) (k : Z) :
  passes_presence_check row ->
  py_int (series_get row "poi_id" VNone) = Ok k ->
  series_lookup row "latitude" = None
  \/ series_lookup row "longitude" = None ->
  process_row repr st (index, row)
  = write {| db := db st; success_count := success_count st;
             error_count := error_count st + 1;
             duplicate_count := duplicate_count st; out := out st |}
      (E_row (index + 1) KeyError).
Proof.
  intros Hp Hk Habs. unfold process_row, row_outcome.
  rewrite (prepare_coordinates index row k Hp Hk).
  by rewrite (coordinates_absent row Habs).
Qed.

(** Claim C6, as the code has it.  For a row that passes the presence
    check, whose identifier coerces to an integer and which has both
    coordinate fields: when a coordinate is null or NaN, or the latitude
    is refused by the float coercion, or the longitude is refused and the
    latitude does not overflow, the row is skipped with one warning; the
    store and the success, error and duplicate counters are as before. *)
Theorem bad_coordinates (st : Tally) (index : Z) (row : Series) (k : Z)
    (lat lon : value) :
  passes_presence_check row ->
  py_int (series_get row "poi_id" VNone) = Ok k ->
  series_lookup row "latitude" = Some lat ->
  series_lookup row "longitude" = Some lon ->
  nan_marker lat \/ nan_marker lon \/ float_refused lat
  \/ (float_refused lon /\ py_float lat <> Raise OverflowError) ->
  exists w,
    (w = W_missing_coordinates (index + 1)
     \/ w = W_invalid_coordinates (index + 1))
    /\ process_row repr st (index, row) = write st w.
Proof.
  intros Hp Hk Hlat Hlon Hbad. unfold process_row, row_outcome.
  rewrite (prepare_coordinates index row k Hp Hk).
  rewrite (coordinates_present row lat lon Hlat Hlon).
  assert (forall v e, isna v = Raise e -> is_ValueError_or_TypeError e = true)
    as Hna by (by intros v e ->%isna_raises).
  destruct (isna lat) as [[|]|e1] eqn:E1;
    [by eexists; split; [left|]
    | |rewrite (Hna _ _ E1); by eexists; split; [right|]].
  destruct (isna lon) as [[|]|e2] eqn:E2;
    [by eexists; split; [left|]
    | |rewrite (Hna _ _ E2); by eexists; split; [right|]].
  assert (~ nan_marker lat) as N1
    by (intros H%isna_nan_marker; congruence).
  assert (~ nan_marker lon) as N2
    by (intros H%isna_nan_marker; congruence).
  unfold float_refused in Hbad.
  destruct Hbad as [H|[H|[H|[H Hov]]]]; [by destruct N1|by destruct N2|..];
    destruct (py_float lat) as [x|e3] eqn:E3;
    try (destruct H; congruence).
  - destruct H as [H|H]; injection H as ->; by eexists; split; [right|].
  - destruct (py_float lon) as [y|e4] eqn:E4; [destruct H; congruence|].
    destruct H as [H|H]; injection H as ->; by eexists; split; [right|].
  - destruct (py_float_raises _ _ E3) as [->|[->| ->]];
      [by eexists; split; [right|]..|done].
Qed.

Lemma rows_with_from_lookup (n i : nat) (k : Z) (t : table) (r : PoI) :
  (i, r) ∈ rows_with_from n k t ->
  exists j, i = (n + j)%nat /\ t !! j = Some r /\ poi_id r = k.
Proof.
  revert n. induction t as [|r0 t IH]; intros n; cbn [rows_with_from].
  - by intros ?%elem_of_nil.
  - destruct (Z.eqb_spec (poi_id r0) k) as [E|E].
    + intros [[= -> ->]|H]%elem_of_cons.
      * exists 0%nat. by rewrite Nat.add_0_r.
      * destruct (IH _ H) as (j & -> & Hj & Hr). exists (S j).
        split; [lia|done].
    + intros H. destruct (IH _ H) as (j & -> & Hj & Hr). exists (S j).
      split; [lia|done].
Qed.


Lemma lookup_present (row : Series) (key : string) :
  missing (series_get row key VNone) = false ->
  exists v, series_lookup row key = Some v /\ ~ counts_as_missing v
            /\ series_get row key VNone = v.
Proof.
  unfold series_get. destruct (series_lookup row key) as [v|]; [|done].
  intros H. exists v. split; [done|]. split; [|done].
  intros Hm%missing_spec. congruence.
Qed.

(** The rows that reach the upsert have been validated, and the defaults
    are the trimmed texts and the coerced coordinates. *)
Lemma prepare_upsert (index : Z) (row : Series) (k : Z) (d : Defaults) :
  prepare repr index row = Upsert k d ->
  exists nm cat,
    row_validated row k nm cat (d_latitude d) (d_longitude d)
    /\ d_name d = strip (py_str repr nm)
    /\ d_category d = strip (py_str repr cat).
Proof.
  unfold prepare.
  destruct (missing (series_get row "poi_id" VNone)) eqn:E1; [done|].
  destruct (missing (series_get row "name" VNone)) eqn:E2; [done|].
  destruct (missing (series_get row "category" VNone)) eqn:E3; [done|].
  apply lookup_present in E1 as (pid & Hpid & Npid & ->).
  apply lookup_present in E2 as (nm & Hnm & Nnm & ->).
  apply lookup_present in E3 as (cat & Hcat & Ncat & ->).
  destruct (py_int pid) as [k'|] eqn:Hk; [|done].
  destruct (coordinates row) as [[[x y]|]|e] eqn:Hc;
    [| done | by destruct (is_ValueError_or_TypeError e)].
  destruct (parse_ratings _); [|done]. intros [= <- <-]. cbn.
  exists nm, cat. split; [|done]. exists pid.
  unfold coordinates, series_item in Hc.
  destruct (series_lookup row "latitude") as [lat|]; [|done].
  destruct (series_lookup row "longitude") as [lon|]; [|done].
  exists lat, lon. cbn in Hc.
  destruct (isna lat) as [[|]|]; [done| |done].
  destruct (isna lon) as [[|]|]; [done| |done]. cbn in Hc.
  destruct (py_float lat); [|done]. destruct (py_float lon); [|done].
  cbn in Hc. injection Hc as <- <-. done.
Qed.



Lemma db_write (st : Tally) (l : line) : db (write st l) = db st.
Proof. done. Qed.








End RowFacts.

(** ** The rules on concrete rows *)

Section RowExamples.

Import Text Num Value Ratings Models Importer Keyed Wording Examples.
Local Open Scope string_scope.

Lemma missing_field_skips_row_witness :
  row_outcome no_repr 0 row_no_category (db (start [])) = Skipped
  /\ process_row no_repr (start []) (0, row_no_category) = start [].
Proof.
  apply (missing_field_skips_row no_repr (start []) 0 row_no_category).
  right. right. vm_compute. by left.
Defined.

(** The claim C6 as stated fails on three rows that pass the presence
    check: without a latitude field the row is counted as an error; with
    an identifier that is not a number the NaN latitude is never looked
    at and the row is counted as an error; a latitude too large for a
    float is counted as an error.  None of them is a warning. *)
Lemma bad_coordinates_counted_as_errors :
  process_row no_repr (start []) (0, row_no_latitude)
  = {| db := []; success_count := 0; error_count := 1;
       duplicate_count := 0; out := [E_row 1 KeyError] |}
  /\ process_row no_repr (start []) (0, row_bad_id_nan_latitude)
     = {| db := []; success_count := 0; error_count := 1;
          duplicate_count := 0; out := [E_row 1 ValueError] |}
  /\ process_row no_repr (start []) (0, row_huge_latitude)
     = {| db := []; success_count := 0; error_count := 1;
          duplicate_count := 0; out := [E_row 1 OverflowError] |}.
Proof. repeat split; vm_compute; reflexivity. Qed.

Lemma bad_coordinates_witness :
  exists w,
    (w = W_missing_coordinates (0 + 1) \/ w = W_invalid_coordinates (0 + 1))
    /\ process_row no_repr (start []) (0, row_nan_latitude)
       = write (start []) w.
Proof.
  apply (bad_coordinates no_repr (start []) 0 row_nan_latitude 4
           (VFloat nan) (VFloat 2.5%float)).
  - unfold passes_presence_check, field_missing, counts_as_missing.
    vm_compute. repeat split; intros [H|[H|[H|H]]]; discriminate H.
  - reflexivity.
  - reflexivity.
  - reflexivity.
  - left. right. exists nan. split; reflexivity.
Defined.



(** The file of the witness, imported once and twice: two successes each
    time, one record, its average left from the first row. *)
Lemma df_cafe_imported :
  db (process_dataframe no_repr df_cafe "CSV" [])
  = [{| poi_id := 1; name := "Cafe"; category := "Drinks";
        latitude := 1.5%float; longitude := 2.5%float;
        ratings := []; avg_rating := Some 4%float |}]
  /\ success_count (process_dataframe no_repr df_cafe "CSV" []) = 2.
Proof. split; vm_compute; reflexivity. Qed.

End RowExamples.

(** ** The average rating: [PoI.save] *)

Section SaveFacts.

Import Models Examples.

(** With ratings, [save] stores their mean. *)
Lemma save_recomputes (pk : option nat) (self obj : PoI) (t t' : table) :
  ratings self <> [] ->
  save pk self t = Ok (obj, t') ->
  ratings obj = ratings self /\ avg_rating obj = Some (mean (ratings obj)).
Proof.
  intros Hne. unfold save, recompute_avg.
  destruct (Model_save _ _ _); [|done]. cbn. intros [= <- _].
  by destruct (ratings self).
Qed.

(** Without ratings, [save] leaves the average as it finds it. *)
Lemma save_keeps_average (pk : option nat) (self obj : PoI) (t t' : table) :
  ratings self = [] ->
  save pk self t = Ok (obj, t') ->
  obj = self.
Proof.
  intros He. unfold save, recompute_avg. rewrite He.
  destruct (Model_save _ _ _); [|done]. cbn. by intros [= <- _].
Qed.

(** Claim C1, at the failing input.  A stored record with the ratings
    [[4.0]] and the average [4.0] is updated with empty ratings: [save]
    writes the record with no ratings and the average still [4.0], where
    the claim wants it unset. *)
Theorem save_keeps_stale_average :
  save (Some 0%nat) (set_defaults cafe_rated unrated) [cafe_rated]
    = Ok (cafe_stale, [cafe_stale])
  /\ update_or_create 1 unrated [cafe_rated]
     = Ok (cafe_stale, false, [cafe_stale])
  /\ ratings cafe_stale = [] /\ avg_rating cafe_stale = Some 4%float.
Proof. repeat split; vm_compute; reflexivity. Qed.

End SaveFacts.

(** ** The decompression step of [import_xml] *)

Section GunzipFacts.

Import Text Value Models Importer Sanitizer Examples.
Local Open Scope string_scope.

(** Claim C8, as the code has it.  On input that starts with the gzip
    magic bytes, a decompression failure that is an [OSError] (a bad gzip
    file among them) makes the sanitizer go on with the bytes as they
    were read; any other failure (the stream cut short, corrupt
    compressed data) leaves the step as raised and the file is reported
    as a file-level error, the store untouched. *)
Theorem gunzip_failure (gzip_decompress : list byte -> result (list byte))
    (decode_utf8_sig : list byte -> string) (raw : list byte) (e : exn) :
  gzip_magic raw = true ->
  gzip_decompress raw = Raise e ->
  (is_OSError e = true ->
   xml_text gzip_decompress decode_utf8_sig raw
   = Ok (_sanitize_ampersands (decode_and_trim decode_utf8_sig raw)))
  /\ (is_OSError e = false ->
      xml_text gzip_decompress decode_utf8_sig raw = Raise e
      /\ forall repr read_xml file_path t,
           import_xml repr gzip_decompress decode_utf8_sig read_xml
             file_path (Ok raw) t
           = ([E_reading_xml e], t)).
Proof.
  intros Hm Hgz.
  split; intros He; unfold import_xml, xml_text, gunzip;
    rewrite Hm, Hgz, He; done.
Qed.

Lemma gunzip_failure_witness :
  (is_OSError BadGzipFile = true ->
   xml_text not_a_gzip_stream one_char_per_byte magic_only
   = Ok (_sanitize_ampersands (decode_and_trim one_char_per_byte magic_only)))
  /\ (is_OSError BadGzipFile = false ->
      xml_text not_a_gzip_stream one_char_per_byte magic_only
      = Raise BadGzipFile
      /\ forall repr read_xml file_path t,
           import_xml repr not_a_gzip_stream one_char_per_byte read_xml
             file_path (Ok magic_only) t
           = ([E_reading_xml BadGzipFile], t)).
Proof.
  apply (gunzip_failure not_a_gzip_stream one_char_per_byte magic_only
           BadGzipFile); reflexivity.
Defined.

(** The claim C8 as stated fails: the two magic bytes alone are a stream
    cut short, the decompression raises [EOFError], which is no
    [OSError], and the file is reported as a file-level error. *)
Lemma truncated_gzip_is_file_error :
  gzip_magic magic_only = true
  /\ import_xml no_repr truncated_stream one_char_per_byte no_records
       "pois.xml" (Ok magic_only) []
     = ([E_reading_xml EOFError], []).
Proof. split; reflexivity. Qed.

End GunzipFacts.

(** ** More on the sanitizer *)

Section SanitizerMore.

Import Text Re Sanitizer Wording Tallying.
Local Open Scope string_scope.






End SanitizerMore.

(** ** More on [import_xml] *)

Section XmlMore.

Import Text Value Models Importer Sanitizer Examples.
Local Open Scope string_scope.








End XmlMore.

(** ** More on the ratings parser *)

Section RatingsMore.

Import Text Num Value Ratings.

Lemma parse_items_acc (items : list value) (acc : list float) :
  parse_items items acc = fs ← parse_items items []; Ok (acc ++ fs).
Proof.
  revert acc. induction items as [|item items IH]; intros acc.
  - cbn. by rewrite app_nil_r.
  - cbn [parse_items].
    destruct (is_None item); [apply IH|].
    destruct (is_float_nan item); [apply IH|].
    destruct (py_float item) as [f|e].
    + rewrite IH, (IH ([] ++ [f])).
      destruct (parse_items items []); cbn; [|done].
      by rewrite <-app_assoc.
    + destruct (is_ValueError_or_TypeError e); [apply IH|done].
Qed.

Lemma parse_items_length (items : list value) (acc fs : list float) :
  parse_items items acc = Ok fs ->
  (length fs <= length acc + length items)%nat.
Proof.
  revert acc. induction items as [|item items IH]; intros acc;
    cbn [parse_items length].
  - intros [= <-]. lia.
  - destruct (is_None item); [intros H%IH; lia|].
    destruct (is_float_nan item); [intros H%IH; lia|].
    destruct (py_float item) as [f|e].
    + intros H%IH. rewrite length_app in H. cbn in H. lia.
    + destruct (is_ValueError_or_TypeError e); [intros H%IH; lia|done].
Qed.

(** The only exception of the ratings parser. *)
Lemma parse_ratings_raises (ratings_data : value) (e : exn) :
  parse_ratings ratings_data = Raise e -> e = OverflowError.
Proof.
  assert (forall v e', py_float v = Raise e' ->
            is_ValueError_or_TypeError e' = false -> e' = OverflowError)
    as Hov.
  { intros v e' H. by destruct (py_float_raises v e' H) as [->|[->| ->]]. }
  destruct ratings_data as [|z|f|s|items|d]; cbn; try done.
  - destruct (float_of_int z) eqn:E; [done|].
    destruct (is_ValueError_or_TypeError e0) eqn:E'; [done|].
    intros [= <-]. by apply (Hov (VInt z)).
  - generalize (@nil float). induction items as [|item items IH]; intros acc;
      cbn [parse_items]; [done|].
    destruct (is_None item); [apply IH|].
    destruct (is_float_nan item); [apply IH|].
    destruct (py_float item) as [f|e'] eqn:E; [apply IH|].
    destruct (is_ValueError_or_TypeError e') eqn:E'; [apply IH|].
    intros [= <-]. by apply (Hov item).
Qed.

(** X4.  The ratings parser lets no exception out but [OverflowError],
    and only on an integer or a sequence: an integer too large for a
    float, alone or among the items.  On every other input it returns. *)
Theorem parse_ratings_raises_overflow_only (ratings_data : value) (e : exn) :
  parse_ratings ratings_data = Raise e ->
  e = OverflowError
  /\ ((exists z, ratings_data = VInt z)
      \/ (exists items, ratings_data = VList items)).
Proof.
  intros H. split; [by eapply parse_ratings_raises|].
  destruct ratings_data as [|z|f|s|items|d]; cbn in H; try done.
  - left. by exists z.
  - right. by exists items.
Qed.

Lemma parse_ratings_raises_overflow_only_witness :
  parse_ratings (VList [VStr "1.5"; VInt (10 ^ 400)]) = Raise OverflowError
  /\ OverflowError = OverflowError
  /\ ((exists z, VList [VStr "1.5"; VInt (10 ^ 400)] = VInt z)
      \/ (exists items, VList [VStr "1.5"; VInt (10 ^ 400)] = VList items)).
Proof.
  split; [vm_compute; reflexivity|].
  apply (parse_ratings_raises_overflow_only
           (VList [VStr "1.5"; VInt (10 ^ 400)]) OverflowError).
  vm_compute. reflexivity.
Defined.

(** X5.  A sequence of floats parses to itself without its NaN items, in
    order; a sequence without NaN parses to itself. *)
Theorem parse_ratings_floats (fs : list float) :
  parse_ratings (VList (VFloat <$> fs))
  = Ok (List.filter (fun f => negb (PrimFloat.is_nan f)) fs).
Proof.
  cbn [parse_ratings]. induction fs as [|f fs IH]; [done|].
  cbn [fmap list_fmap parse_items is_None is_float_nan List.filter].
  destruct (PrimFloat.is_nan f); cbn [negb]; [done|].
  cbn [py_float]. rewrite parse_items_acc. fold (fmap VFloat fs).
  by rewrite IH.
Qed.

(** X6.  The sequence branch works item by item: the floats of a
    concatenation are the floats of its parts, one after the other, and an
    item the float coercion refuses is dropped without touching the
    others. *)
Theorem parse_ratings_itemwise (a b : list value) (xs ys : list float) :
  parse_ratings (VList a) = Ok xs ->
  parse_ratings (VList b) = Ok ys ->
  parse_ratings (VList (a ++ b)) = Ok (xs ++ ys)
  /\ (length xs <= length a)%nat
  /\ forall item e,
       py_float item = Raise e -> is_ValueError_or_TypeError e = true ->
       parse_ratings (VList (a ++ item :: b)) = Ok (xs ++ ys).
Proof.
  cbn [parse_ratings].
  assert (forall l acc, parse_items (a ++ l) acc
            = acc' ← parse_items a acc; parse_items l acc') as Happ.
  { induction a as [|item a IH]; intros l acc; [done|]. cbn [app parse_items].
    destruct (is_None item); [apply IH|].
    destruct (is_float_nan item); [apply IH|].
    destruct (py_float item) as [f|e]; [apply IH|].
    destruct (is_ValueError_or_TypeError e); [apply IH|done]. }
  intros Ha Hb. repeat split.
  - by rewrite Happ, Ha; cbn; rewrite parse_items_acc, Hb.
  - apply parse_items_length in Ha. cbn in Ha. lia.
  - intros item e He Hvt. rewrite Happ, Ha. cbn [mbind result_bind parse_items].
    rewrite He, Hvt.
    destruct (is_None item); [|destruct (is_float_nan item)];
      by rewrite parse_items_acc, Hb.
Qed.

Lemma parse_ratings_itemwise_witness :
  parse_ratings (VList ([VStr "1.5"; VNone] ++ [VInt 3]))
  = Ok ([1.5] ++ [3])%float
  /\ (length [1.5%float] <= length [VStr "1.5"; VNone])%nat
  /\ forall item e,
       py_float item = Raise e -> is_ValueError_or_TypeError e = true ->
       parse_ratings (VList ([VStr "1.5"; VNone] ++ item :: [VInt 3]))
       = Ok ([1.5] ++ [3])%float.
Proof.
  apply (parse_ratings_itemwise [VStr "1.5"; VNone] [VInt 3]
           [1.5%float] [3%float]); vm_compute; reflexivity.
Defined.

End RatingsMore.

(** ** More on the row loop: counters and lines *)

Section TallyFacts.

Import Text Num Value Ratings Models Importer Keyed Wording Tallying Examples.
Local Open Scope string_scope.

Variable repr : value -> string.

Lemma taken_from_rows (n : nat) (pk : option nat) (k : Z) (t : table) :
  taken_from n pk k t
  = existsb (fun p => negb (bool_decide (pk = Some (fst p))))
      (rows_with_from n k t).
Proof.
  revert n. induction t as [|r t IH]; intros n; [done|].
  cbn [taken_from rows_with_from]. rewrite IH.
  by destruct (poi_id r =? k)%Z.
Qed.

(** The upsert never meets the uniqueness constraint: the only exception
    [update_or_create] raises is the one of [get] on several rows. *)
Lemma update_or_create_raises (k : Z) (d : Defaults) (t : table) (e : exn) :
  update_or_create k d t = Raise e -> e = MultipleObjectsReturned.
Proof.
  unfold update_or_create, rows_with, save, Model_save.
  destruct (rows_with_from 0 k t) as [|[i r] [|? ?]] eqn:Hrows.
  - rewrite poi_id_recompute_avg. cbn [poi_id new_PoI].
    rewrite taken_from_rows, Hrows. done.
  - rewrite poi_id_recompute_avg. cbn [poi_id set_defaults].
    destruct (rows_with_from_lookup 0 i k t r) as (j & _ & _ & ->).
    { rewrite Hrows. apply list_elem_of_here. }
    rewrite taken_from_rows, Hrows. cbn.
    by rewrite bool_decide_eq_true_2.
  - by intros [= <-].
Qed.

Lemma py_int_raises (v : value) (e : exn) :
  py_int v = Raise e -> e <> IntegrityError.
Proof.
  destruct v; cbn; try (by intros [= <-]).
  - unfold int_of_float. destruct (Prim2SF f); by intros [= <-].
  - destruct (int_of_str s); by intros [= <-].
Qed.

Lemma coordinates_raises (row : Series) (e : exn) :
  coordinates row = Raise e -> e <> IntegrityError.
Proof.
  unfold coordinates, series_item.
  destruct (series_lookup row "latitude") as [lat|]; [|by intros [= <-]].
  destruct (series_lookup row "longitude") as [lon|]; [|by intros [= <-]].
  cbn. destruct (isna lat) as [[|]|e1] eqn:E1; cbn; try done.
  - destruct (isna lon) as [[|]|e2] eqn:E2; cbn; try done.
    + destruct (py_float lat) as [x|e3] eqn:E3; cbn.
      * destruct (py_float lon) as [y|e4] eqn:E4; cbn; [done|].
        intros [= <-].
        by destruct (py_float_raises _ _ E4) as [->|[->| ->]].
      * intros [= <-].
        by destruct (py_float_raises _ _ E3) as [->|[->| ->]].
    + intros [= <-]. by rewrite (isna_raises _ _ E2).
  - intros [= <-]. by rewrite (isna_raises _ _ E1).
Qed.

(** No step before the upsert raises [IntegrityError]. *)
Lemma prepare_fail (index : Z) (row : Series) (e : exn) :
  prepare repr index row = Fail e -> e <> IntegrityError.
Proof.
  unfold prepare.
  destruct (missing _); [done|]. destruct (missing _); [done|].
  destruct (missing _); [done|].
  destruct (py_int _) as [k|e1] eqn:E1;
    [|intros [= <-]; by eapply py_int_raises].
  destruct (coordinates row) as [[[x y]|]|e2] eqn:E2; [|done|].
  - destruct (parse_ratings _) as [fs|e3] eqn:E3; [done|].
    intros [= <-]. by rewrite (parse_ratings_raises _ _ E3).
  - destruct (is_ValueError_or_TypeError e2); [done|].
    intros [= <-]. by eapply coordinates_raises.
Qed.

Lemma row_outcome_fail (index : Z) (row : Series) (t : table) (e : exn) :
  row_outcome repr index row t = Failed e -> e <> IntegrityError.
Proof.
  unfold row_outcome.
  destruct (prepare repr index row) as [|w|e1|k d] eqn:Hp; try done.
  - intros [= <-]. by eapply prepare_fail.
  - destruct (update_or_create k d t) as [[[obj c] t']|e2] eqn:Hu; [done|].
    intros [= <-]. by rewrite (update_or_create_raises _ _ _ _ Hu).
Qed.

Lemma is_skipped_spec (index : Z) (row : Series) :
  is_skipped row = true <-> prepare repr index row = Skip.
Proof.
  unfold is_skipped, prepare.
  destruct (missing (series_get row "poi_id" VNone)); [done|].
  destruct (missing (series_get row "name" VNone)); [done|].
  destruct (missing (series_get row "category" VNone)); [done|].
  cbn. split; [done|].
  destruct (py_int _); [|done].
  destruct (coordinates row) as [[[x y]|]|e]; [|done|].
  - by destruct (parse_ratings _).
  - by destruct (is_ValueError_or_TypeError e).
Qed.

Lemma count_app (p : line -> bool) (ls ls' : list line) :
  count p (ls ++ ls')%list = count p ls + count p ls'.
Proof. unfold count. rewrite List.filter_app, length_app. lia. Qed.

(** What one row does to the counters and to the lines, by the way the
    body of the loop ends. *)
Lemma process_row_cases (st : Tally) (index : Z) (row : Series) :
  let st' := process_row repr st (index, row) in
  (is_skipped row = true /\ st' = st)
  \/ (is_skipped row = false
      /\ duplicate_count st' = duplicate_count st
      /\ ((exists w, is_warning w = true /\ row_number w = Some (index + 1)
             /\ st' = write st w)
          \/ (exists e, success_count st' = success_count st
                /\ error_count st' = error_count st + 1
                /\ out st' = (out st ++ [E_row (index + 1) e])%list)
          \/ (success_count st' = success_count st + 1
              /\ error_count st' = error_count st
              /\ out st' = (out st
                   ++ if ((success_count st + 1) mod 100 =? 0)%Z
                      then [L_progress (success_count st + 1)] else [])%list))).
Proof.
  cbn zeta. unfold process_row.
  destruct (is_skipped row) eqn:Hs.
  { left. split; [done|]. apply (is_skipped_spec index) in Hs.
    unfold row_outcome. by rewrite Hs. }
  right. split; [done|].
  assert (prepare repr index row <> Skip) as Hns
    by (intros H%is_skipped_spec; congruence).
  destruct (row_outcome repr index row (db st)) as [|w|t'|e] eqn:Ho.
  - exfalso. unfold row_outcome in Ho.
    destruct (prepare repr index row) as [| | |k d]; try done.
    by destruct (update_or_create k d (db st)) as [[[? ?] ?]|].
  - split; [done|]. left. exists w. split; [|split; [|done]].
    + unfold row_outcome, prepare in Ho.
      repeat (destruct (missing _); [done|]).
      destruct (py_int _); [|done].
      destruct (coordinates row) as [[[x y]|]|e0]; [|by injection Ho as <-|].
      * destruct (parse_ratings _); [|done].
        by destruct (update_or_create _ _ _) as [[[? ?] ?]|].
      * destruct (is_ValueError_or_TypeError e0); [by injection Ho as <-|done].
    + unfold row_outcome, prepare in Ho.
      repeat (destruct (missing _); [done|]).
      destruct (py_int _); [|done].
      destruct (coordinates row) as [[[x y]|]|e0]; [|by injection Ho as <-|].
      * destruct (parse_ratings _); [|done].
        by destruct (update_or_create _ _ _) as [[[? ?] ?]|].
      * destruct (is_ValueError_or_TypeError e0); [by injection Ho as <-|done].
  - split; [by destruct (_ =? 0)%Z|]. right. right.
    destruct (_ =? 0)%Z; cbn; rewrite ?app_nil_r; done.
  - pose proof (row_outcome_fail _ _ _ _ Ho) as Hne.
    split; [by destruct e|]. right. left. exists e. by destruct e.
Qed.

Lemma count_snoc (p : line -> bool) (ls : list line) (l : line) :
  count p (ls ++ [l]) = count p ls + (if p l then 1 else 0).
Proof.
  rewrite count_app. unfold count at 2. cbn. by destruct (p l).
Qed.

Lemma process_rows_cons (ir : Z * Series) (rows : list (Z * Series))
    (st : Tally) :
  process_rows repr (ir :: rows) st
  = process_rows repr rows (process_row repr st ir).
Proof. done. Qed.

(** An invariant of the loop: what holds before and is kept by every row
    holds after. *)
Lemma process_rows_invariant (P : Tally -> Prop) (rows : list (Z * Series))
    (st : Tally) :
  P st ->
  (forall st ir, ir ∈ rows -> P st -> P (process_row repr st ir)) ->
  P (process_rows repr rows st).
Proof.
  revert st. induction rows as [|ir rows IH]; intros st H0 Hstep; [done|].
  rewrite process_rows_cons. apply IH.
  - apply Hstep; [apply list_elem_of_here|done].
  - intros st' ir' Hin. apply Hstep. by apply list_elem_of_further.
Qed.

Lemma length_iterrows_from (cols : list string) (i : Z)
    (rows : list (list value)) :
  length (iterrows_from cols i rows) = length rows.
Proof.
  revert i. induction rows as [|r rows IH]; intros i; [done|].
  cbn. by rewrite IH.
Qed.

Lemma iterrows_from_index (cols : list string) (i0 : Z)
    (rows : list (list value)) (i : Z) (row : Series) :
  (i, row) ∈ iterrows_from cols i0 rows ->
  i0 <= i < i0 + Z.of_nat (length rows).
Proof.
  revert i0. induction rows as [|r rows IH]; intros i0; cbn.
  - by intros ?%elem_of_nil.
  - intros [[= -> _]|H%IH]%elem_of_cons; lia.
Qed.

(** The three counters and the warnings written grow by one for every row
    that is not silently skipped. *)
Lemma process_rows_total (rows : list (Z * Series)) (st : Tally) :
  success_count (process_rows repr rows st)
  + error_count (process_rows repr rows st)
  + duplicate_count (process_rows repr rows st)
  + count is_warning (out (process_rows repr rows st))
  + Z.of_nat (length (List.filter (fun ir => is_skipped (snd ir)) rows))
  = success_count st + error_count st + duplicate_count st
    + count is_warning (out st) + Z.of_nat (length rows).
Proof.
  revert st. induction rows as [|[index row] rows IH]; intros st.
  - cbn. lia.
  - rewrite process_rows_cons. cbn [List.filter snd length].
    specialize (IH (process_row repr st (index, row))).
    destruct (process_row_cases st index row)
      as [[Hs E]|(Hs & Hd & [(w & Hw & _ & E)|[(e & H1 & H2 & H3)
                                                |(H1 & H2 & H3)]])];
      rewrite Hs; cbn [length].
    + rewrite E in IH |- *. lia.
    + rewrite E in IH |- *. cbn [write success_count error_count
        duplicate_count out] in *. rewrite count_snoc, Hw in IH. lia.
    + revert IH. rewrite H1, H2, Hd, H3, count_snoc. cbn. lia.
    + revert IH. rewrite H1, H2, Hd, H3.
      destruct (_ =? 0)%Z; rewrite ?count_snoc, ?app_nil_r; cbn; lia.
Qed.

Lemma process_rows_counters (rows : list (Z * Series)) (st : Tally) :
  duplicate_count st = 0 /\ 0 <= success_count st /\ 0 <= error_count st ->
  duplicate_count (process_rows repr rows st) = 0
  /\ 0 <= success_count (process_rows repr rows st)
  /\ 0 <= error_count (process_rows repr rows st).
Proof.
  intros H0.
  apply (process_rows_invariant
           (fun st => duplicate_count st = 0 /\ 0 <= success_count st
                      /\ 0 <= error_count st)); [done|].
  clear st H0. intros st [index row] _ (Hd & Hs & He).
  destruct (process_row_cases st index row)
    as [[_ E]|(_ & Hd' & [(w & _ & _ & E)|[(e & H1 & H2 & _)
                                            |(H1 & H2 & _)]])];
    rewrite ?E, ?H1, ?H2, ?Hd';
    cbn [write success_count error_count duplicate_count]; lia.
Qed.

(** X7.  Every row of the file is accounted for exactly once: it is a
    success, an error, a duplicate, a warning or a silent skip. *)
Theorem rows_accounted (df : DataFrame) (file_type : string) (t : table) :
  let st := process_dataframe repr df file_type t in
  success_count st + error_count st + duplicate_count st
  + count is_warning (out st)
  + Z.of_nat (length (List.filter (fun ir => is_skipped (snd ir))
                        (iterrows df)))
  = Z.of_nat (length (data df))
  /\ 0 <= success_count st /\ 0 <= error_count st
  /\ 0 <= duplicate_count st.
Proof.
  cbn zeta. unfold process_dataframe.
  pose proof (process_rows_total (iterrows df) (start t)) as Htot.
  destruct (process_rows_counters (iterrows df) (start t))
    as (Hd & Hs & He); [done|].
  unfold iterrows in *. rewrite length_iterrows_from in Htot.
  cbn [write success_count error_count duplicate_count out].
  rewrite count_snoc. cbn. cbn in Htot.
  change (count is_warning []) with 0 in Htot. lia.
Qed.


(** X9.  Every error of the loop is reported: the error lines written
    are as many as the error counter says, and every row-level line
    carries the number of a row of the file, counted from one. *)
Theorem errors_reported (df : DataFrame) (file_type : string) (t : table) :
  let st := process_dataframe repr df file_type t in
  count is_row_error (out st) = error_count st
  /\ forall l n, l ∈ out st -> row_number l = Some n ->
       1 <= n <= Z.of_nat (length (data df)).
Proof.
  cbn zeta. unfold process_dataframe.
  assert (count is_row_error (out (process_rows repr (iterrows df) (start t)))
          = error_count (process_rows repr (iterrows df) (start t))
          /\ forall l n,
               l ∈ out (process_rows repr (iterrows df) (start t)) ->
               row_number l = Some n ->
               1 <= n <= Z.of_nat (length (data df))) as [Hc Hn].
  { apply (process_rows_invariant
             (fun st => count is_row_error (out st) = error_count st
                /\ forall l n, l ∈ out st -> row_number l = Some n ->
                     1 <= n <= Z.of_nat (length (data df)))).
    { split; [done|]. by intros l n ?%elem_of_nil. }
    intros st [index row] Hin [Hc Hn].
    apply iterrows_from_index in Hin.
    destruct (process_row_cases st index row)
      as [[_ E]|(_ & Hd' & [(w & Hw & Hrow & E)|[(e & H1 & H2 & H3)
                                                  |(H1 & H2 & H3)]])];
      rewrite ?E; [done|..].
    - cbn [write out error_count]. split.
      + rewrite count_snoc. destruct w; try done; cbn; lia.
      + intros l n [H|H]%elem_of_app Hl; [by eapply Hn|].
        apply list_elem_of_singleton in H as ->.
        rewrite Hrow in Hl. injection Hl as <-. lia.
    - rewrite H2, H3. split.
      + rewrite count_snoc. cbn. lia.
      + intros l n [H|H]%elem_of_app Hl; [by eapply Hn|].
        apply list_elem_of_singleton in H as ->.
        cbn in Hl. injection Hl as <-. lia.
    - rewrite H2, H3. split.
      + destruct (_ =? 0)%Z; rewrite ?count_snoc, ?app_nil_r; cbn; lia.
      + intros l n [H|H]%elem_of_app Hl; [by eapply Hn|].
        destruct (_ =? 0)%Z; [|by apply elem_of_nil in H].
        apply list_elem_of_singleton in H as ->. done. }
  cbn [write out error_count]. split.
  - rewrite count_snoc. cbn. lia.
  - intros l n [H|H]%elem_of_app Hl; [by eapply Hn|].
    by apply list_elem_of_singleton in H as ->.
Qed.

Lemma progress_lines_succ (s : Z) :
  0 <= s ->
  progress_lines (s + 1)
  = (progress_lines s
     ++ if ((s + 1) mod 100 =? 0)%Z then [L_progress (s + 1)] else [])%list.
Proof.
  intros Hs. unfold progress_lines.
  destruct (Z.eqb_spec ((s + 1) mod 100) 0) as [E|E].
  - assert ((s + 1) / 100 = s / 100 + 1
            /\ 100 * (1 + s / 100) = s + 1) as [-> E2].
    { pose proof (Z.div_mod (s + 1) 100). pose proof (Z.div_mod s 100).
      pose proof (Z.mod_pos_bound s 100). lia. }
    rewrite seqZ_app by (pose proof (Z.div_pos s 100); lia).
    rewrite fmap_app. f_equal.
    rewrite seqZ_cons by lia. cbn. by rewrite E2.
  - assert ((s + 1) / 100 = s / 100) as ->.
    { pose proof (Z.div_mod (s + 1) 100). pose proof (Z.div_mod s 100).
      pose proof (Z.mod_pos_bound s 100).
      pose proof (Z.mod_pos_bound (s + 1) 100). lia. }
    by rewrite app_nil_r.
Qed.

(** X10.  A progress line is written at every hundredth success and at
    no other point: the progress lines of a run are those of 100, 200, ...
    up to the final success count, in this order. *)
Theorem progress_every_hundred (df : DataFrame) (file_type : string)
    (t : table) :
  List.filter is_progress (out (process_dataframe repr df file_type t))
  = progress_lines (success_count (process_dataframe repr df file_type t)).
Proof.
  unfold process_dataframe.
  assert (0 <= success_count (process_rows repr (iterrows df) (start t))
          /\ List.filter is_progress
               (out (process_rows repr (iterrows df) (start t)))
             = progress_lines
                 (success_count (process_rows repr (iterrows df) (start t))))
    as [_ H].
  { apply (process_rows_invariant
             (fun st => 0 <= success_count st
                /\ List.filter is_progress (out st)
                   = progress_lines (success_count st))); [done|].
    intros st [index row] _ [Hs Hp].
    destruct (process_row_cases st index row)
      as [[_ E]|(_ & Hd' & [(w & Hw & _ & E)|[(e & H1 & H2 & H3)
                                              |(H1 & H2 & H3)]])];
      rewrite ?E; [done|..].
    - cbn [write out success_count]. split; [done|].
      rewrite List.filter_app, Hp. cbn [List.filter].
      destruct w; try done; by rewrite app_nil_r.
    - rewrite H1, H3. split; [done|].
      rewrite List.filter_app, Hp. cbn. by rewrite app_nil_r.
    - rewrite H1, H3. split; [lia|].
      rewrite List.filter_app, Hp, progress_lines_succ by done.
      by destruct (_ =? 0)%Z. }
  cbn [write out success_count].
  rewrite List.filter_app, H. cbn. by rewrite app_nil_r.
Qed.

End TallyFacts.

(** ** More on the store under the import *)

Section StoreFacts.

Import Text Num Value Ratings Models Importer Keyed Wording Tallying Examples.

Variable repr : value -> string.

Lemma rows_with_from_nil (n : nat) (k : Z) (t : table) :
  rows_with_from n k t = [] -> k ∉ ids t.
Proof.
  revert n. induction t as [|r t IH]; intros n; cbn.
  - intros _. apply not_elem_of_nil.
  - destruct (Z.eqb_spec (poi_id r) k) as [E|E]; [done|].
    intros H%IH. apply not_elem_of_cons. done.
Qed.

(** What a successful upsert does to a store, unique or not: a row is
    added at the end for an identifier that is not there, or the row found
    is overwritten in place. *)
Lemma update_or_create_ok (k : Z) (d : Defaults) (t t' : table) (obj : PoI)
    (created : bool) :
  update_or_create k d t = Ok (obj, created, t') ->
  ((k ∉ ids t) /\ t' = t ++ [written k d None])
  \/ (exists i old, t !! i = Some old /\ poi_id old = k
        /\ t' = <[i := written k d (Some old)]> t).
Proof.
  unfold update_or_create, rows_with, save, Model_save.
  destruct (rows_with_from 0 k t) as [|[i r] [|? ?]] eqn:Hrows; [| |done].
  - destruct (taken_from _ _ _ _); [done|]. cbn. intros [= _ _ <-].
    left. split; [by eapply rows_with_from_nil|done].
  - destruct (taken_from _ _ _ _); [done|]. cbn. intros [= _ _ <-].
    right. exists i, r.
    destruct (rows_with_from_lookup 0 i k t r) as (j & -> & Hj & Hk).
    { rewrite Hrows. apply list_elem_of_here. }
    done.
Qed.

Lemma row_outcome_ok (index : Z) (row : Series) (t t' : table) :
  row_outcome repr index row t = Upserted t' ->
  exists k d, prepare repr index row = Upsert k d
    /\ (((k ∉ ids t) /\ t' = t ++ [written k d None])
        \/ (exists i old, t !! i = Some old /\ poi_id old = k
              /\ t' = <[i := written k d (Some old)]> t)).
Proof.
  unfold row_outcome.
  destruct (prepare repr index row) as [| | |k d]; try done.
  destruct (update_or_create k d t) as [[[obj c] t'']|] eqn:E; [|done].
  intros [= <-]. exists k, d. split; [done|]. by eapply update_or_create_ok.
Qed.

(** The store after one row: as it was, or with the row's upsert done. *)
Lemma process_row_db (st : Tally) (index : Z) (row : Series) :
  db (process_row repr st (index, row)) = db st
  \/ exists k d, prepare repr index row = Upsert k d
       /\ (((k ∉ ids (db st))
            /\ db (process_row repr st (index, row))
               = db st ++ [written k d None])
           \/ (exists i old, db st !! i = Some old /\ poi_id old = k
                 /\ db (process_row repr st (index, row))
                    = <[i := written k d (Some old)]> (db st))).
Proof.
  unfold process_row.
  destruct (row_outcome repr index row (db st)) as [|w|t'|e] eqn:Ho.
  - by left.
  - by left.
  - right. apply row_outcome_ok in Ho as (k & d & Hp & H).
    exists k, d. split; [done|].
    by destruct (_ =? 0)%Z.
  - left. by destruct e.
Qed.

Lemma poi_id_written (k : Z) (d : Defaults) (o : option PoI) :
  keyed k o -> poi_id (written k d o) = k.
Proof.
  intros Hk. unfold written. rewrite poi_id_recompute_avg.
  destruct o as [r|]; [|done]. cbn. by apply Hk.
Qed.

Lemma ids_insert_written (i : nat) (k : Z) (d : Defaults) (t : table)
    (old : PoI) :
  t !! i = Some old -> poi_id old = k ->
  ids (<[i := written k d (Some old)]> t) = ids t.
Proof.
  intros Hi Hk. unfold ids. rewrite list_fmap_insert.
  rewrite poi_id_written by (by intros ? [= <-]).
  apply list_insert_id. rewrite list_lookup_fmap, Hi. cbn. by rewrite Hk.
Qed.

Lemma upserts_cons_keys (index : Z) (row : Series)
    (rows : list (Z * Series)) (k : Z) :
  k ∉ (upserts repr ((index, row) :: rows)).*1 ->
(k ∉ (upserts repr rows).*1)
  /\ forall k' d, prepare repr index row = Upsert k' d -> k' <> k.
Proof.
  cbn [upserts]. destruct (prepare repr index row) as [| | |k1 d1];
    try (split; [done|congruence]).
  rewrite fmap_cons. cbn. intros [H1 H2]%not_elem_of_cons.
  split; [done|]. intros ? ? [= <- _]. congruence.
Qed.

(** The loop on a store: the identifiers before are a prefix of those
    after, and a row whose identifier no upsert names stays as it is. *)
Lemma process_rows_store (rows : list (Z * Series)) (st : Tally) :
  ids (db st) `prefix_of` ids (db (process_rows repr rows st))
  /\ forall i r, db st !! i = Some r ->
       poi_id r ∉ (upserts repr rows).*1 ->
       db (process_rows repr rows st) !! i = Some r.
Proof.
  revert st. induction rows as [|[index row] rows IH]; intros st; [done|].
  rewrite process_rows_cons.
  destruct (IH (process_row repr st (index, row))) as [IH1 IH2].
  destruct (process_row_db st index row)
    as [E|(k & d & Hp & [[Hk E]|(j & old & Hj & Hk & E)])].
  - rewrite E in IH1, IH2. split; [done|].
    intros i r Hi [Hn _]%upserts_cons_keys. by apply IH2.
  - rewrite E in IH1, IH2. split.
    + etrans; [|exact IH1]. unfold ids. rewrite fmap_app.
      by apply prefix_app_r.
    + intros i r Hi [Hn _]%upserts_cons_keys. apply IH2; [|done].
      by apply lookup_app_l_Some.
  - rewrite E in IH1, IH2. rewrite ids_insert_written in IH1 by done.
    split; [done|].
    intros i r Hi [Hn Hne]%upserts_cons_keys. apply IH2; [|done].
    rewrite list_lookup_insert_ne; [done|].
    intros <-. apply (Hne _ _ Hp). congruence.
Qed.

(** X11.  The import never removes or reorders records: the identifiers
    stored before it are, in the same order, the first identifiers stored
    after it. *)
Theorem records_kept (df : DataFrame) (file_type : string) (t : table) :
  ids t `prefix_of` ids (db (process_dataframe repr df file_type t)).
Proof.
  unfold process_dataframe. rewrite db_write.
  apply (process_rows_store (iterrows df) (start t)).
Qed.

(** X12.  A stored record whose identifier no row of the file brings to
    the upsert is left exactly as it was, in its place. *)
Theorem other_records_untouched (df : DataFrame) (file_type : string)
    (t : table) (i : nat) (r : PoI) :
  t !! i = Some r ->
  poi_id r ∉ (upserts repr (iterrows df)).*1 ->
  db (process_dataframe repr df file_type t) !! i = Some r.
Proof.
  intros Hi Hn. unfold process_dataframe. rewrite db_write.
  by apply (process_rows_store (iterrows df) (start t)).
Qed.

(** A property of single records that every written record has holds of
    the whole store after the loop when it holds before. *)
Lemma process_rows_records (P : PoI -> Prop) (rows : list (Z * Series))
    (st : Tally) :
  (forall index row k d o,
     (index, row) ∈ rows -> prepare repr index row = Upsert k d ->
     P (written k d o)) ->
  Forall P (db st) -> Forall P (db (process_rows repr rows st)).
Proof.
  intros Hw H0.
  apply (process_rows_invariant repr (fun st => Forall P (db st))); [done|].
  clear st H0. intros st [index row] Hin H.
  destruct (process_row_db st index row)
    as [E|(k & d & Hp & [[Hk E]|(j & old & Hj & Hk & E)])]; rewrite E.
  - done.
  - apply Forall_app. split; [done|]. apply Forall_singleton. by eapply Hw.
  - apply Forall_insert; [done|]. by eapply Hw.
Qed.



Lemma rstrip_idempotent (s : string) : rstrip (rstrip s) = rstrip s.
Proof.
  induction s as [|c s IH]; [done|]. cbn [rstrip].
  destruct (rstrip s) as [|c' u] eqn:E.
  - destruct (is_space c) eqn:Hc; [done|]. cbn. by rewrite Hc.
  - cbn [rstrip] in IH |- *. by rewrite IH.
Qed.

Lemma lstrip_head (s : string) :
  lstrip s = EmptyString \/ exists c u, lstrip s = String c u /\ is_space c = false.
Proof.
  induction s as [|c s IH]; [by left|]. cbn.
  destruct (is_space c) eqn:Hc; [done|]. right. by exists c, s.
Qed.

Lemma strip_idempotent (s : string) : strip (strip s) = strip s.
Proof.
  unfold strip.
  destruct (lstrip_head s) as [->|(c & u & -> & Hc)]; [done|].
  assert (exists v, rstrip (String c u) = String c v) as [v Hv].
  { cbn [rstrip]. destruct (rstrip u); rewrite ?Hc; by eexists. }
  rewrite Hv. cbn [lstrip]. rewrite Hc. rewrite <- Hv.
  apply rstrip_idempotent.
Qed.

(** X14.  The name and the category of every record are stored without
    white space around them, once this is true of the store before. *)
Theorem names_stored_trimmed (df : DataFrame) (file_type : string)
    (t : table) :
  Forall trimmed t ->
  Forall trimmed (db (process_dataframe repr df file_type t)).
Proof.
  intros H. unfold process_dataframe. rewrite db_write.
  apply process_rows_records; [|done].
  intros index row k d o _ (nm & cat & _ & Hn & Hc)%prepare_upsert.
  unfold trimmed, written.
  assert (forall r, name (recompute_avg r) = name r
                    /\ category (recompute_avg r) = category r) as Hr.
  { intros r. unfold recompute_avg. by destruct (ratings r). }
  destruct (Hr match o with Some r => set_defaults r d | None => new_PoI k d
               end) as [-> ->].
  destruct o; cbn [name category set_defaults new_PoI]; rewrite Hn, Hc;
    split; apply strip_idempotent.
Qed.





End StoreFacts.

(** ** The command: file kinds and the importers *)

Section CommandFacts.

Import Text Value Models Importer Keyed Command.
Local Open Scope string_scope.

Variable repr : value -> string.
Variable read_csv : string -> Py.result DataFrame.
Variable import_json : string -> table -> list message * table.
Variable read_bytes : string -> Py.result (list byte).
Variable gzip_decompress : list byte -> Py.result (list byte).
Variable decode_utf8_sig : list byte -> string.
Variable read_xml : string -> Py.result DataFrame.

Lemma split_cons (sep : ascii) (s : string) :
  exists p ps, split sep s = p :: ps.
Proof.
  induction s as [|c s (p & ps & IH)]; [by eexists _, _|]. cbn.
  destruct (Ascii.eqb c sep); [by eexists _, _|].
  rewrite IH. by eexists _, _.
Qed.

Lemma find_range (sep : ascii) (s : string) :
  find sep s = (-1)%Z \/ (0 <= find sep s)%Z.
Proof.
  induction s as [|c s IH]; [by left|]. cbn.
  destruct (Ascii.eqb c sep); [by right|].
  destruct (Z.ltb_spec (find sep s) 0); [by left|]. right. lia.
Qed.

Lemma split_no_sep (sep : ascii) (s : string) :
  find sep s = (-1)%Z -> split sep s = [s].
Proof.
  induction s as [|c s IH]; [done|]. cbn.
  destruct (Ascii.eqb c sep); [done|].
  destruct (Z.ltb_spec (find sep s) 0) as [E|E]; [|lia].
  intros _. rewrite IH; [done|].
  destruct (find_range sep s); [done|lia].
Qed.

Lemma last_split_app (sep : ascii) (pre ext : string) :
  List.last (split sep (pre ++ String sep ext)) ""
  = List.last (split sep ext) "".
Proof.
  induction pre as [|c pre IH]; cbn [append split].
  - rewrite Ascii.eqb_refl. by destruct (split_cons sep ext) as (p & ps & ->).
  - destruct (split_cons sep (pre ++ String sep ext)) as (p & ps & E).
    assert (ps <> []) as Hps.
    { clear IH. revert p ps E. induction pre as [|c' pre IH]; intros p ps;
        cbn [append split].
      - rewrite Ascii.eqb_refl.
        destruct (split_cons sep ext) as (q & qs & ->). by intros [= _ <-].
      - destruct (split_cons sep (pre ++ String sep ext)) as (q & qs & E).
        rewrite E. specialize (IH _ _ E).
        destruct (Ascii.eqb c' sep); intros [= _ <-]; done. }
    rewrite E in IH |- *.
    destruct (Ascii.eqb c sep); [done|].
    destruct ps as [|q qs]; done.
Qed.

(** X16.  The file kind is read off the text after the last dot, folded
    to lower case; a path without a dot is its own extension. *)
Theorem file_extension_after_last_dot (pre ext : string) :
  find "." ext = (-1)%Z ->
  file_extension (pre ++ String "." ext) = lower ext
  /\ file_extension ext = lower ext.
Proof.
  intros H. unfold file_extension.
  rewrite last_split_app, split_no_sep by done. done.
Qed.

(** X17.  A path whose extension is none of [csv], [json], [xml] is
    announced, reported as unsupported, and the store is left as it
    was. *)
Theorem unsupported_file_ignored (pre ext : string) (t : table) :
  find "." ext = (-1)%Z ->
  lower ext ∉ ["csv"; "json"; "xml"] ->
  handle_file repr read_csv import_json read_bytes gzip_decompress
    decode_utf8_sig read_xml (pre ++ String "." ext) t
  = ([M_processing_file (pre ++ String "." ext);
      M_unsupported (pre ++ String "." ext)], t).
Proof.
  intros Hdot Hext. unfold handle_file.
  destruct (file_extension_after_last_dot pre ext Hdot) as [-> _].
  rewrite !not_elem_of_cons in Hext. destruct Hext as (H1 & H2 & H3 & _).
  destruct (String.eqb_spec (lower ext) "csv"); [done|].
  destruct (String.eqb_spec (lower ext) "json"); [done|].
  destruct (String.eqb_spec (lower ext) "xml"); [done|]. done.
Qed.

Lemma rename_if_present_rename (df : DataFrame) (p : string * string) :
  rename_if_present df p = rename [p] df.
Proof.
  unfold rename_if_present.
  destruct (existsb _ _) eqn:E; [done|].
  destruct df as [cols dat]. unfold rename. cbn in *. f_equal.
  induction cols as [|c cols IH]; [done|]. cbn in *.
  apply orb_false_elim in E as [-> E]. by rewrite <- IH.
Qed.

(** X18.  The renaming loop of the CSV importer, one column at a time,
    gives what one renaming with the whole mapping gives: no new name is
    renamed again by a later turn. *)
Theorem rename_csv_columns_at_once (df : DataFrame) :
  rename_csv_columns df = rename csv_column_mapping df.
Proof.
  unfold rename_csv_columns, csv_column_mapping. cbn [fold_left].
  rewrite !rename_if_present_rename. unfold rename. cbn [columns data].
  f_equal. rewrite !map_map. apply map_ext. intros c.
  cbn [List.find fst snd].
  repeat match goal with
         | |- context [String.eqb ?a c] =>
             destruct (String.eqb_spec a c) as [<-|?];
             [reflexivity|cbv beta iota]
         end.
  reflexivity.
Qed.

(** X19.  Whatever a CSV or an XML file holds, and whether or not it can
    be read, the records stored before the import are still there after
    it, in the same places. *)
Theorem importers_keep_records (file_path : string)
    (file : Py.result (list byte)) (t : table) :
  ids t `prefix_of` ids (import_csv repr read_csv file_path t).2
  /\ ids t `prefix_of`
       ids (import_xml repr gzip_decompress decode_utf8_sig read_xml
              file_path file t).2.
Proof.
  split.
  - unfold import_csv. destruct (read_csv file_path) as [df|e]; [|done].
    cbn [snd]. unfold process_dataframe. rewrite db_write.
    apply (process_rows_store repr _ (start t)).
  - unfold import_xml. destruct file as [raw|e]; [|by destruct e].
    destruct (_ ← xml_text _ _ raw; read_xml _) as [df|e]; [|done].
    cbn [snd]. unfold process_dataframe. rewrite db_write.
    apply (process_rows_store repr _ (start t)).
Qed.

End CommandFacts.

(** ** The theorems above on the example file *)

Section MoreExamples.

Import Text Num Value Ratings Models Importer Keyed Wording Command Tallying
  Examples.
Local Open Scope string_scope.

Lemma other_records_untouched_witness :
  db (process_dataframe no_repr df_cafe "CSV" [bakery]) !! 0%nat
  = Some bakery.
Proof.
  apply (other_records_untouched no_repr df_cafe "CSV" [bakery] 0 bakery).
  - reflexivity.
  - apply (bool_decide_unpack _). vm_compute. exact I.
Defined.


Lemma names_stored_trimmed_witness :
  Forall trimmed (db (process_dataframe no_repr df_cafe "CSV" [bakery])).
Proof.
  apply (names_stored_trimmed no_repr df_cafe "CSV" [bakery]).
  apply Forall_singleton. split; vm_compute; reflexivity.
Defined.


Lemma file_extension_after_last_dot_witness :
  file_extension ("pois.2024" ++ String "." "CSV") = lower "CSV"
  /\ file_extension "CSV" = lower "CSV".
Proof.
  apply (file_extension_after_last_dot "pois.2024" "CSV"). reflexivity.
Defined.

Lemma unsupported_file_ignored_witness :
  handle_file no_repr no_csv (fun _ t => ([], t)) no_bytes not_a_gzip_stream
    one_char_per_byte no_records ("notes" ++ String "." "TXT") [bakery]
  = ([M_processing_file ("notes" ++ String "." "TXT");
      M_unsupported ("notes" ++ String "." "TXT")], [bakery]).
Proof.
  apply (unsupported_file_ignored no_repr no_csv (fun _ t => ([], t))
           no_bytes not_a_gzip_stream one_char_per_byte no_records
           "notes" "TXT" [bakery]).
  - reflexivity.
  - change (lower "TXT") with "txt".
    rewrite !not_elem_of_cons. repeat split; try discriminate.
    apply not_elem_of_nil.
Defined.

End MoreExamples.
